(** * icx.cui: fixed-width table and panel printers

    A shallow embedding of [src/icx/cui.py] ([Column], [RowPrinter], [Row],
    [Header], [MapPrinter]) together with the fragment of Python's string
    runtime the module relies on ([str.format], the format-spec
    mini-language for [str] and [int], slicing, [str * int], [in]).

    Conventions.
    - Python [int] is [Z]; [len] and parsed widths are [nat].
    - A call that may raise returns a [result]; the exception kinds that can
      occur are listed in [exn].  [OutsideModel] is not a Python exception:
      it marks inputs of [str.format] whose treatment lies outside the
      modelled fragment (conversions [!r], attribute or index lookups in a
      field name, nested replacement fields, thousands separators, integer
      presentation types other than [d]).
    - The format mini-language follows CPython 3.10 and later (the zero
      flag is accepted for strings).  The [ssize_t] bound on the number of
      width digits and memory exhaustion are not modelled.
    - [click.secho(line, file=..., reverse=...)] appends [(line, reverse)]
      to the output sink. *)

From Stdlib Require Import ZArith List Bool Ascii String Lia.
From Stdlib Require Import Decimal DecimalFacts DecimalNat DecimalString.
Import ListNotations.

Local Open Scope list_scope.
Local Open Scope string_scope.

(* ================================================================= *)
(** ** Results of calls that may raise *)

Inductive exn : Type :=
| ValueError
| IndexError
| KeyError
| OutsideModel.

Inductive result (A : Type) : Type :=
| Ok (a : A)
| Raise (e : exn).

Arguments Ok {A} a.
Arguments Raise {A} e.

Definition bind {A B : Type} (r : result A) (k : A -> result B) : result B :=
  match r with
  | Ok a => k a
  | Raise e => Raise e
  end.

Definition rmap {A B : Type} (f : A -> B) (r : result A) : result B :=
  bind r (fun a => Ok (f a)).

Notation "x <- r ;; k" := (bind r (fun x => k))
  (at level 61, r at next level, right associativity).

(** [for x in xs: ys.append(f(x))] where [f] may raise. *)
Fixpoint mapM {A B : Type} (f : A -> result B) (xs : list A) : result (list B) :=
  match xs with
  | [] => Ok []
  | x :: xs' => y <- f x ;; ys <- mapM f xs' ;; Ok (y :: ys)
  end.

(* ================================================================= *)
(** ** Python strings *)

Module Str.

(** [len(s)] *)
Definition len (s : string) : Z := Z.of_nat (String.length s).

Fixpoint replicate (n : nat) (s : string) : string :=
  match n with
  | O => ""
  | S n' => s ++ replicate n' s
  end.

(** [s * n]; a count that is not positive gives the empty string. *)
Definition mul (s : string) (n : Z) : string := replicate (Z.to_nat n) s.

Fixpoint take (n : nat) (s : string) : string :=
  match n, s with
  | S n', String c s' => String c (take n' s')
  | _, _ => ""
  end.

Fixpoint drop (n : nat) (s : string) : string :=
  match n, s with
  | S n', String _ s' => drop n' s'
  | _, _ => s
  end.

(** A slice bound [k] clipped into [0 .. len s], negative bounds counting
    from the end. *)
Definition clip (s : string) (k : Z) : nat :=
  if (k <? 0)%Z then Z.to_nat (Z.max (len s + k) 0)
  else Z.to_nat (Z.min k (len s)).

(** [s[:k]] *)
Definition slice_to (s : string) (k : Z) : string := take (clip s k) s.

(** [s[k:]] *)
Definition slice_from (s : string) (k : Z) : string := drop (clip s k) s.

(** [c in s] for a one-character [c]. *)
Fixpoint contains (c : ascii) (s : string) : bool :=
  match s with
  | "" => false
  | String d s' => Ascii.eqb c d || contains c s'
  end.

(** [sep.join(parts)] *)
Definition join (sep : string) (parts : list string) : string :=
  String.concat sep parts.

(** [str(n)] for a natural number: its decimal digits. *)
Definition of_nat (n : nat) : string := NilEmpty.string_of_uint (Nat.to_uint n).

(** [str(z)] for an [int]. *)
Definition of_Z (z : Z) : string :=
  if (z <? 0)%Z then "-" ++ of_nat (Z.to_nat (- z)) else of_nat (Z.to_nat z).

End Str.

(* ================================================================= *)
(** ** Python values that reach the printers *)

Inductive value : Type :=
| VStr (s : string)
| VInt (z : Z).

(** [str(v)] *)
Definition py_str (v : value) : string :=
  match v with
  | VStr s => s
  | VInt z => Str.of_Z z
  end.

(** [xs[i]] on a list, with negative indices counting from the end;
    [None] stands for [IndexError]. *)
Definition py_index {A : Type} (xs : list A) (i : Z) : option A :=
  let n := Z.of_nat (List.length xs) in
  if (i <? 0)%Z then
    if (i + n <? 0)%Z then None else nth_error xs (Z.to_nat (i + n))
  else nth_error xs (Z.to_nat i).

(* ================================================================= *)
(** ** The format-spec mini-language

    [[[fill]align][sign][#][0][width][,|_][.precision][type]], parsed as
    CPython's [parse_internal_render_format_spec] does. *)

Module Spec.

Record t : Type := mk {
  fill_char : ascii;
  align : ascii;
  sign : option ascii;
  alternate : bool;
  width : option nat;
  thousands : bool;
  precision : option nat;
  type : ascii
}.

Definition is_alignment_token (c : ascii) : bool :=
  match c with
  | "<"%char | ">"%char | "="%char | "^"%char => true
  | _ => false
  end.

Definition is_sign_element (c : ascii) : bool :=
  match c with
  | " "%char | "+"%char | "-"%char => true
  | _ => false
  end.

(** The value of a decimal digit: its code minus the code of [0]. *)
Definition digit_value (c : ascii) : option nat :=
  let code := nat_of_ascii c in
  if Nat.leb 48 code && Nat.leb code 57 then Some (code - 48) else None.

(** Reads a run of decimal digits: the value, how many characters were
    consumed, and what follows. *)
Fixpoint get_integer (s : string) (acc consumed : nat) : nat * nat * string :=
  match s with
  | String c s' =>
      match digit_value c with
      | Some d => get_integer s' (10 * acc + d) (S consumed)
      | None => (acc, consumed, s)
      end
  | "" => (acc, consumed, s)
  end.

(** Fill and alignment: (fill, fill given, align, align given, rest). *)
Definition parse_fill_align (default_align : ascii) (s : string)
  : ascii * bool * ascii * bool * string :=
  match s with
  | String f (String a r) =>
      if is_alignment_token a then (f, true, a, true, r)
      else if is_alignment_token f then (" "%char, false, f, true, String a r)
      else (" "%char, false, default_align, false, s)
  | String a "" =>
      if is_alignment_token a then (" "%char, false, a, true, "")
      else (" "%char, false, default_align, false, s)
  | "" => (" "%char, false, default_align, false, s)
  end.

Definition parse_sign (s : string) : option ascii * string :=
  match s with
  | String c r => if is_sign_element c then (Some c, r) else (None, s)
  | "" => (None, s)
  end.

Definition parse_flag (flag : ascii) (s : string) : bool * string :=
  match s with
  | String c r => if Ascii.eqb c flag then (true, r) else (false, s)
  | "" => (false, s)
  end.

Definition starts_with (c : ascii) (s : string) : bool :=
  match s with
  | String d _ => Ascii.eqb c d
  | "" => false
  end.

Definition parse (spec : string) (default_type default_align : ascii)
  : result t :=
  let '(fill, fill_given, al, align_given, s1) :=
    parse_fill_align default_align spec in
  let '(sg, s2) := parse_sign s1 in
  let '(alt, s3) := parse_flag "#"%char s2 in
  (* the zero flag: zero padding, and [=] alignment for numbers *)
  let '(zflag, s4) :=
    if fill_given then (false, s3) else parse_flag "0"%char s3 in
  let fill := if zflag then "0"%char else fill in
  let al :=
    if zflag && negb align_given && Ascii.eqb default_align ">"%char
    then "="%char else al in
  let '(w, consumed, s5) := get_integer s4 0 0 in
  let width := if Nat.eqb consumed 0 then None else Some w in
  let '(comma, s6) := parse_flag ","%char s5 in
  let '(underscore, s7) := parse_flag "_"%char s6 in
  if comma && underscore then Raise ValueError
  else if underscore && starts_with ","%char s7 then Raise ValueError
  else
    prec_rest <-
      match s7 with
      | String "."%char r =>
          let '(p, consumed, r') := get_integer r 0 0 in
          if Nat.eqb consumed 0 then Raise ValueError else Ok (Some p, r')
      | _ => Ok (None, s7)
      end ;;
    let '(prec, s8) := prec_rest in
    match s8 with
    | "" => Ok (mk fill al sg alt width (comma || underscore) prec default_type)
    | String ty "" => Ok (mk fill al sg alt width (comma || underscore) prec ty)
    | _ => Raise ValueError
    end.

End Spec.

(* ================================================================= *)
(** ** [format(value, spec)] for [str] and [int] *)

Module Fmt.

(** Left and right padding for a field of [nchars] characters
    (CPython's [calc_padding]); [=] pads on the left. *)
Definition calc_padding (nchars : nat) (width : option nat) (align : ascii)
  : nat * nat :=
  let total :=
    match width with
    | Some w => Nat.max w nchars
    | None => nchars
    end in
  let lpad :=
    match align with
    | ">"%char => total - nchars
    | "^"%char => (total - nchars) / 2
    | "<"%char => 0
    | _ => total - nchars
    end in
  (lpad, total - nchars - lpad).

Definition pad (s : string) (width : option nat) (fill align : ascii) : string :=
  let '(lpad, rpad) := calc_padding (String.length s) width align in
  Str.replicate lpad (String fill "") ++ s ++ Str.replicate rpad (String fill "").

(** [format_string_internal]: a [str] under a parsed spec. *)
Definition format_string (s : string) (f : Spec.t) : result string :=
  match Spec.sign f with
  | Some _ => Raise ValueError
  | None =>
      if Spec.alternate f then Raise ValueError
      else if Ascii.eqb (Spec.align f) "="%char then Raise ValueError
      else
        let s' :=
          match Spec.precision f with
          | Some p => Str.take p s
          | None => s
          end in
        Ok (pad s' (Spec.width f) (Spec.fill_char f) (Spec.align f))
  end.

(** [str.__format__] *)
Definition format_str (s spec : string) : result string :=
  match spec with
  | "" => Ok s
  | _ =>
      f <- Spec.parse spec "s"%char "<"%char ;;
      if Spec.thousands f then Raise ValueError
      else if Ascii.eqb (Spec.type f) "s"%char then format_string s f
      else Raise ValueError
  end.

(** [format_long_internal] for the decimal presentation. *)
Definition format_long (z : Z) (f : Spec.t) : result string :=
  match Spec.precision f with
  | Some _ => Raise ValueError
  | None =>
      if Spec.thousands f then Raise OutsideModel
      else
        let digits := Str.of_nat (Z.abs_nat z) in
        let sg :=
          if (z <? 0)%Z then "-"
          else match Spec.sign f with
               | Some "+"%char => "+"
               | Some " "%char => " "
               | _ => ""
               end in
        if Ascii.eqb (Spec.align f) "="%char then
          let '(lpad, _) :=
            calc_padding (String.length sg + String.length digits)
                         (Spec.width f) "="%char in
          Ok (sg ++ Str.replicate lpad (String (Spec.fill_char f) "") ++ digits)
        else
          Ok (pad (sg ++ digits) (Spec.width f) (Spec.fill_char f) (Spec.align f))
  end.

Definition other_int_type (c : ascii) : bool :=
  match c with
  | "b"%char | "c"%char | "o"%char | "x"%char | "X"%char | "n"%char
  | "e"%char | "E"%char | "f"%char | "F"%char | "g"%char | "G"%char
  | "%"%char => true
  | _ => false
  end.

(** [int.__format__] *)
Definition format_int (z : Z) (spec : string) : result string :=
  match spec with
  | "" => Ok (Str.of_Z z)
  | _ =>
      f <- Spec.parse spec "d"%char ">"%char ;;
      if Ascii.eqb (Spec.type f) "d"%char then format_long z f
      else if other_int_type (Spec.type f) then Raise OutsideModel
      else Raise ValueError
  end.

(** [format(v, spec)] *)
Definition format_value (v : value) (spec : string) : result string :=
  match v with
  | VStr s => format_str s spec
  | VInt z => format_int z spec
  end.

(* ----------------------------------------------------------------- *)
(** *** [str.format] *)

Inductive an_state : Type := ANS_INIT | ANS_AUTO | ANS_MANUAL.

(** Automatic field numbering: the state and the next automatic index. *)
Record autonumber : Type := mk_an {
  an_st : an_state;
  an_field_number : nat
}.

Fixpoint all_digits (s : string) : bool :=
  match s with
  | "" => true
  | String c s' =>
      match Spec.digit_value c with
      | Some _ => all_digits s'
      | None => false
      end
  end.

(** [get_field_object]: the positional argument a field name denotes. *)
Definition get_field (name : string) (an : autonumber) (args : list value)
  : result (value * autonumber) :=
  if Str.contains "."%char name then Raise OutsideModel
  else
    match name with
    | "" =>
        match an_st an with
        | ANS_MANUAL => Raise ValueError
        | _ =>
            match nth_error args (an_field_number an) with
            | Some v => Ok (v, mk_an ANS_AUTO (S (an_field_number an)))
            | None => Raise IndexError
            end
        end
    | _ =>
        if all_digits name then
          match an_st an with
          | ANS_AUTO => Raise ValueError
          | _ =>
              let '(i, _, _) := Spec.get_integer name 0 0 in
              match nth_error args i with
              | Some v => Ok (v, mk_an ANS_MANUAL (an_field_number an))
              | None => Raise IndexError
              end
          end
        else Raise KeyError
    end.

(** Where the scanner of the format string is. *)
Inductive mode : Type :=
| MText                               (* literal text *)
| MLbrace                             (* just after a [{] in text *)
| MRbrace                             (* just after a [}] in text *)
| MName (name : string)               (* in a field name *)
| MSpec (name : string) (spec : string). (* in a format spec *)

Inductive action : Type :=
| Emit (c : ascii) (m : mode)
| Goto (m : mode)
| Field (name spec : string)
| Fail (e : exn).

Definition in_name (name : string) (c : ascii) : action :=
  match c with
  | "{"%char => Fail ValueError
  | "["%char => Fail OutsideModel
  | "!"%char => Fail OutsideModel
  | "}"%char => Field name ""
  | ":"%char => Goto (MSpec name "")
  | _ => Goto (MName (name ++ String c ""))
  end.

Definition step (m : mode) (c : ascii) : action :=
  match m with
  | MText =>
      match c with
      | "{"%char => Goto MLbrace
      | "}"%char => Goto MRbrace
      | _ => Emit c MText
      end
  | MLbrace =>
      match c with
      | "{"%char => Emit c MText
      | _ => in_name "" c
      end
  | MRbrace =>
      match c with
      | "}"%char => Emit c MText
      | _ => Fail ValueError
      end
  | MName name => in_name name c
  | MSpec name spec =>
      match c with
      | "{"%char => Fail OutsideModel
      | "}"%char => Field name spec
      | _ => Goto (MSpec name (spec ++ String c ""))
      end
  end.

Fixpoint vformat (m : mode) (an : autonumber) (args : list value)
  (fmt : string) : result string :=
  match fmt with
  | "" =>
      match m with
      | MText => Ok ""
      | _ => Raise ValueError
      end
  | String c rest =>
      match step m c with
      | Emit d m' => rmap (String d) (vformat m' an args rest)
      | Goto m' => vformat m' an args rest
      | Field name spec =>
          va <- get_field name an args ;;
          out <- format_value (fst va) spec ;;
          rmap (append out) (vformat MText (snd va) args rest)
      | Fail e => Raise e
      end
  end.

(** [fmt.format( *args )] *)
Definition format (fmt : string) (args : list value) : result string :=
  vformat MText (mk_an ANS_INIT 0) args fmt.

End Fmt.


(* ================================================================= *)
(** ** The output sink

    [click.secho(line, file=self.__file, reverse=...)] hands one line and
    its emphasis flag to the sink. *)

Definition sink : Type := list (string * bool).

Definition secho (line : string) (reverse : bool) (out : sink) : sink :=
  (out ++ [(line, reverse)])%list.

(** A statement [click.secho(e)] whose argument [e] may raise: nothing is
    written when it does. *)
Definition emit (line : result string) (reverse : bool) (out : sink)
  : sink * result unit :=
  match line with
  | Ok l => (secho l reverse out, Ok tt)
  | Raise e => (out, Raise e)
  end.

(* ================================================================= *)
(** ** [class Column], [class Row(Column)], [class Header(Row)] *)

Inductive klass : Type := KColumn | KRow | KHeader.

Module Column.

(** [R] is the type of the positional arguments of a render call; the
    accessor may raise. *)
Record t (R : Type) : Type := mk {
  cls : klass;
  accessor : R -> result value;
  size : Z;
  format : string;
  value_format : option string;
  name : string
}.

Arguments mk {R}.
Arguments cls {R}.
Arguments accessor {R}.
Arguments size {R}.
Arguments format {R}.
Arguments value_format {R}.
Arguments name {R}.

(** [f'{{:{align}{size}.{size}}}'] *)
Definition template (al : string) (size : Z) : string :=
  "{:" ++ al ++ Str.of_Z size ++ "." ++ Str.of_Z size ++ "}".

(** [__init__(self, get_value, size, format=None, name='')], for an
    instance of class [k]. *)
Definition init {R : Type} (k : klass) (get_value : R -> result value)
  (size : Z) (format : option string) (name : string) : t R :=
  let size := Z.max size (Str.len name) in
  let fmt :=
    match format with
    | None => template "" size
    | Some f =>
        if Str.contains ">"%char f then template ">" size
        else if Str.contains "^"%char f then template "^" size
        else template "<" size
    end in
  mk k get_value size fmt format name.

Definition get_value {R : Type} (c : t R) (args : R) : result value :=
  accessor c args.

Definition get_str {R : Type} (c : t R) (args : R) : result value :=
  match value_format c with
  | Some vf =>
      v <- accessor c args ;;
      s <- Fmt.format vf [v] ;;
      Ok (VStr s)
  | None => accessor c args
  end.

(** [isinstance(c, Header)] *)
Definition is_header {R : Type} (c : t R) : bool :=
  match cls c with
  | KHeader => true
  | _ => false
  end.

End Column.

(** [Column(...)], [Row(...)] and [Header(...)]: the subclasses inherit
    [__init__]. *)
Definition Column {R : Type} := @Column.init R KColumn.
Definition Row {R : Type} := @Column.init R KRow.
Definition Header {R : Type} := @Column.init R KHeader.

(* ================================================================= *)
(** ** [class RowPrinter] *)

Module RowPrinter.

Record t (R : Type) : Type := mk {
  columns_ : list (Column.t R);
  format_str : string;
  sep_str : string;
  header : string
}.

Arguments mk {R}.
Arguments columns_ {R}.
Arguments format_str {R}.
Arguments sep_str {R}.
Arguments header {R}.

Definition init {R : Type} (columns : list (Column.t R)) : result (t R) :=
  let formats := map Column.format columns in
  let seps := map (fun c => Str.mul "-" (Column.size c)) columns in
  let names := map Column.name columns in
  let format_str := "| " ++ Str.join " | " formats ++ " |" in
  let sep_str := "+-" ++ Str.join "-+-" seps ++ "-+" in
  header <- Fmt.format format_str (map VStr names) ;;
  Ok (mk columns format_str sep_str header).

Definition print_header {R : Type} (rp : t R) (out : sink) : sink :=
  secho (header rp) true out.

Definition print_separater {R : Type} (rp : t R) (out : sink) : sink :=
  secho (sep_str rp) false out.

(** The line [print_data] hands to the sink. *)
Definition data_line {R : Type} (rp : t R) (args : R) : result string :=
  values <- mapM (fun c => Column.get_str c args) (columns_ rp) ;;
  Fmt.format (format_str rp) values.

Definition print_data {R : Type} (rp : t R) (args : R) (out : sink)
  : sink * result unit :=
  emit (data_line rp args) false out.

(** [f'{{:{w}}}'] *)
Definition slot (w : Z) : string := "{:" ++ Str.of_Z w ++ "}".

(** The loop of [print_spanned] from column number [i] on. *)
Fixpoint spanned_formats {R : Type} (columns : list (Column.t R))
  (i idx size spanned : Z) (formats : list string) : list string :=
  match columns with
  | [] => formats
  | c :: rest =>
      if (i <? idx)%Z then
        spanned_formats rest (i + 1) idx size spanned
          (formats ++ [slot (Column.size c)])%list
      else if (i <? idx + size - 1)%Z then
        spanned_formats rest (i + 1) idx size
          (spanned + (Column.size c + 3)) formats
      else
        spanned_formats rest (i + 1) idx size 0
          (formats ++ [slot (Column.size c + spanned)])%list
  end.

Definition spanned_line {R : Type} (rp : t R) (idx size : Z)
  (data : list value) : result string :=
  let formats := spanned_formats (columns_ rp) 0 idx size 0 [] in
  let format_str := "| " ++ Str.join " | " formats ++ " |" in
  Fmt.format format_str data.

Definition print_spanned {R : Type} (rp : t R) (idx size : Z)
  (data : list value) (out : sink) : sink * result unit :=
  emit (spanned_line rp idx size data) false out.

(** The inner loop of [print_row]: [n] more columns of the group, the
    next one being number [i] of it. *)
Fixpoint group_span {R : Type} (columns : list (Column.t R))
  (idx i : Z) (n : nat) (spanned : Z) : result Z :=
  match n with
  | O => Ok spanned
  | S n' =>
      match py_index columns (i + idx) with
      | None => Raise IndexError
      | Some c => group_span columns idx (i + 1) n' (spanned + (Column.size c + 3))
      end
  end.

(** The outer loop of [print_row]. *)
Fixpoint row_formats {R : Type} (columns : list (Column.t R))
  (cols : list (Z * value)) (idx : Z) (formats : list string)
  (values : list value) : result (list string * list value) :=
  match cols with
  | [] => Ok (formats, values)
  | (size, v) :: rest =>
      spanned <- group_span columns idx 0 (Z.to_nat size) 0 ;;
      row_formats columns rest (idx + size)
        (formats ++ [slot (spanned - 3)])%list (values ++ [v])%list
  end.

Definition row_line {R : Type} (rp : t R) (cols : list (Z * value))
  : result string :=
  fv <- row_formats (columns_ rp) cols 0 [] [] ;;
  let format_str := "| " ++ Str.join " | " (fst fv) ++ " |" in
  Fmt.format format_str (snd fv).

Definition print_row {R : Type} (rp : t R) (cols : list (Z * value))
  (out : sink) : sink * result unit :=
  emit (row_line rp cols) false out.

(** The [columns] property. *)
Definition columns {R : Type} (rp : t R) : Z :=
  Z.of_nat (List.length (columns_ rp)).

End RowPrinter.

(* ================================================================= *)
(** ** [class MapPrinter] *)

Module MapPrinter.

Record t (R : Type) : Type := mk {
  rows : list (Column.t R);
  format_title : string;
  sep_str : string;
  format_left : string;
  format_right : string;
  format_center : string;
  header : string
}.

Arguments mk {R}.
Arguments rows {R}.
Arguments format_title {R}.
Arguments sep_str {R}.
Arguments format_left {R}.
Arguments format_right {R}.
Arguments format_center {R}.
Arguments header {R}.

(** The first loop of [__init__]: (max_name, max_value, max_title). *)
Fixpoint measure {R : Type} (rows : list (Column.t R))
  (max_name max_value max_title : Z) : Z * Z * Z :=
  match rows with
  | [] => (max_name, max_value, max_title)
  | row :: rest =>
      if Column.is_header row then
        measure rest max_name max_value (Z.max max_title (Column.size row))
      else
        measure rest (Z.max max_name (Str.len (Column.name row)))
          (Z.max max_value (Column.size row)) max_title
  end.

(** The widths [__init__] settles on: (max_name, max_value, max_width). *)
Definition widths {R : Type} (rows : list (Column.t R)) : Z * Z * Z :=
  let '(max_name, max_value, max_title) := measure rows 0 0 0 in
  let max_width := Z.max max_title (max_value + max_name + 3)%Z in
  let max_value :=
    if (max_width >? max_title)%Z then (max_width - (max_name + 3))%Z
    else max_value in
  (max_name, max_value, max_width).

(** [f'{{:{al}{w}}}'] *)
Definition slot (al : string) (w : Z) : string :=
  "{:" ++ al ++ Str.of_Z w ++ "}".

Definition init {R : Type} (rows : list (Column.t R)) : result (t R) :=
  let '(max_name, max_value, max_width) := widths rows in
  let format_title := "| " ++ slot "^" max_width ++ " |" in
  let sep_str :=
    "+-" ++ Str.mul "-" max_name ++ "-+-" ++ Str.mul "-" max_value ++ "-+" in
  let format_left :=
    "| " ++ slot ">" max_name ++ " | " ++ slot "<" max_value ++ " |" in
  let format_right :=
    "| " ++ slot ">" max_name ++ " | " ++ slot ">" max_value ++ " |" in
  let format_center :=
    "| " ++ slot "^" max_name ++ " | " ++ slot "^" max_value ++ " |" in
  header <- Fmt.format format_center [VStr "Name"; VStr "Value"] ;;
  Ok (mk rows format_title sep_str format_left format_right format_center
         header).

Definition print_header {R : Type} (mp : t R) (out : sink) : sink * t R :=
  (secho (header mp) true out, mp).

Definition print_separater {R : Type} (mp : t R) (out : sink) : sink * t R :=
  (secho (sep_str mp) false out, mp).

(** The two-field template and the cell text chosen for one row. *)
Definition value_str {R : Type} (mp : t R) (row : Column.t R) (args : R)
  : result (string * string) :=
  v <- Column.get_str row args ;;
  let row_format := Column.format row in
  if Str.contains ">"%char row_format then
    s <- Fmt.format row_format [v] ;;
    Ok (format_right mp, Str.slice_from s (- Column.size row))
  else if Str.contains "^"%char row_format then
    s <- Fmt.format row_format [v] ;;
    Ok (format_center mp, Str.slice_to s (Column.size row))
  else
    s <- Fmt.format row_format [v] ;;
    Ok (format_left mp, Str.slice_to s (Column.size row)).

(** The line one iteration of [print_data] hands to the sink, with its
    emphasis flag. *)
Definition row_line {R : Type} (mp : t R) (row : Column.t R) (args : R)
  : result (string * bool) :=
  fv <- value_str mp row args ;;
  if Column.is_header row then
    l <- Fmt.format (format_title mp) [VStr (snd fv)] ;;
    Ok (l, true)
  else
    l <- Fmt.format (fst fv) [VStr (Column.name row); VStr (snd fv)] ;;
    Ok (l, false).

(** The loop of [print_data]; lines written before a failing row stay
    written. *)
Fixpoint print_rows {R : Type} (mp : t R) (rows : list (Column.t R))
  (args : R) (out : sink) : sink * result unit :=
  match rows with
  | [] => (out, Ok tt)
  | row :: rest =>
      match row_line mp row args with
      | Ok (l, reverse) => print_rows mp rest args (secho l reverse out)
      | Raise e => (out, Raise e)
      end
  end.

(** [print_data] returns [self]. *)
Definition print_data {R : Type} (mp : t R) (args : R) (out : sink)
  : sink * result (t R) :=
  let '(out', r) := print_rows mp (rows mp) args out in
  (out', rmap (fun _ => mp) r).

End MapPrinter.

(* ================================================================= *)
(** * Auxiliary definitions for the proofs *)

(** Total length of the parts of a joined string. *)
Fixpoint total_length (parts : list string) : nat :=
  match parts with
  | [] => 0
  | p :: ps => String.length p + total_length ps
  end.

Definition is_digit (c : ascii) : bool :=
  match Spec.digit_value c with
  | Some _ => true
  | None => false
  end.

Fixpoint digits_only (s : string) : bool :=
  match s with
  | "" => true
  | String c s' => is_digit c && digits_only s'
  end.

(** The next character, if any, is not a digit. *)
Definition no_digit_ahead (s : string) : Prop :=
  match s with
  | "" => True
  | String c _ => is_digit c = false
  end.

(** The alignment character a generated spec starts with, if any. *)
Inductive mark : Type := MNone | MLeft | MRight | MCenter.

Definition mark_str (a : mark) : string :=
  match a with
  | MNone => ""
  | MLeft => "<"
  | MRight => ">"
  | MCenter => "^"
  end.

Definition mark_align (a : mark) (default : ascii) : ascii :=
  match a with
  | MNone => default
  | MLeft => "<"%char
  | MRight => ">"%char
  | MCenter => "^"%char
  end.

(** [[mark]w] or [[mark]w.w] *)
Definition gen_spec (a : mark) (w : nat) (prec : bool) : string :=
  mark_str a ++ Str.of_nat w ++ (if prec then "." ++ Str.of_nat w else "").

(** After the width comes the end of the spec or the precision. *)
Definition after_width (w : nat) (prec : bool) : string :=
  if prec then "." ++ Str.of_nat w else "".

Definition brace_free (s : string) : bool :=
  negb (Str.contains "{" s) && negb (Str.contains "}" s).

(** A replacement field [{:spec}]. *)
Definition tok (spec : string) : string := "{:" ++ spec ++ "}".

(** ['| ' + ' | '.join(parts) + ' |'] *)
Definition line (parts : list string) : string :=
  "| " ++ Str.join " | " parts ++ " |".

(** What follows the first part of a line. *)
Fixpoint more (parts : list string) : string :=
  match parts with
  | [] => " |"
  | p :: ps => " | " ++ p ++ more ps
  end.

(** The cells of a line: the values formatted left to right under the
    specs; a missing value is an [IndexError], surplus values are
    ignored. *)
Fixpoint render_cells (specs : list string) (vs : list value)
  : result (list string) :=
  match specs with
  | [] => Ok []
  | sp :: specs' =>
      match vs with
      | [] => Raise IndexError
      | v :: vs' =>
          out <- Fmt.format_value v sp ;;
          outs <- render_cells specs' vs' ;;
          Ok (out :: outs)
      end
  end.

(** How a cell is aligned. *)
Inductive alignment : Type := Left | Right | Center.

(** The alignment a value format stands for. *)
Definition alignment_of (value_format : option string) : alignment :=
  match value_format with
  | None => Left
  | Some f =>
      if Str.contains ">" f then Right
      else if Str.contains "^" f then Center
      else Left
  end.

(** [s] set in a field of [w] columns. *)
Definition aligned (al : alignment) (w : nat) (s : string) : string :=
  let gap := w - String.length s in
  match al with
  | Left => s ++ Str.replicate gap " "
  | Right => Str.replicate gap " " ++ s
  | Center => Str.replicate (gap / 2) " " ++ s ++ Str.replicate (gap - gap / 2) " "
  end.

(** The columns [__init__] can build. *)
Inductive constructed {R : Type} : Column.t R -> Prop :=
| constructed_init k g w f n : constructed (Column.init k g w f n).

(** The alignment character of a column's template. *)
Definition column_mark {R : Type} (c : Column.t R) : mark :=
  match Column.value_format c with
  | None => MNone
  | Some f =>
      if Str.contains ">" f then MRight
      else if Str.contains "^" f then MCenter
      else MLeft
  end.

Definition column_spec {R : Type} (c : Column.t R) : string :=
  gen_spec (column_mark c) (Z.to_nat (Column.size c)) true.

(** The sum of the effective widths of a column list. *)
Definition sum_sizes {R : Type} (columns : list (Column.t R)) : Z :=
  fold_right (fun c acc => (Column.size c + acc)%Z) 0%Z columns.

(** The length every line of a [RowPrinter] is meant to have. *)
Definition row_length {R : Type} (columns : list (Column.t R)) : Z :=
  (4 + sum_sizes columns + 3 * (Z.of_nat (List.length columns) - 1))%Z.

(** The display value of every column is a string. *)
Definition displays_strings {R : Type} (columns : list (Column.t R))
  (args : R) : Prop :=
  Forall (fun c => exists s, Column.get_str c args = Ok (VStr s)) columns.

(* ----------------------------------------------------------------- *)
(** ** Sample tables *)

(** Records with two components, and the accessors picking them. *)
Definition rec2 : Type := (value * value)%type.
Definition first : rec2 -> result value := fun r => Ok (fst r).
Definition second : rec2 -> result value := fun r => Ok (snd r).

(** The columns [ID] (width 4, format [>]) and [Status] (width 8). *)
Definition col_id : Column.t rec2 := Column first 4 (Some ">") "ID".
Definition col_status : Column.t rec2 := Column second 8 None "Status".
Definition id_status : list (Column.t rec2) := [col_id; col_status].

(** [ID] with a format that has a replacement field. *)
Definition col_id_field : Column.t rec2 := Column first 4 (Some "{:>}") "ID".

(** A panel with the section header [SUMMARY] (width 20) and the row
    [Count] (width 5). *)
Definition row_summary : Column.t rec2 := Header first 20 None "SUMMARY".
Definition row_count : Column.t rec2 := Row second 5 None "Count".
Definition summary_panel : list (Column.t rec2) := [row_summary; row_count].

(** A right-aligned row of width 3. *)
Definition row_right : Column.t rec2 := Row second 3 (Some "{:>}") "n".

(* ----------------------------------------------------------------- *)
(** ** Slots of spanned and grouped rows *)

(** The value's string representation fits in [w] columns. *)
Definition fits (v : value) (w : Z) : Prop := (Str.len (py_str v) <= w)%Z.

(** The spec of a slot of width [w]. *)
Definition slot_spec (w : Z) : string := gen_spec MNone (Z.to_nat w) false.

(** What the merging loops add up: each column's width and the three
    characters of a separator. *)
Definition span_sum {R : Type} (columns : list (Column.t R)) : Z :=
  fold_right (fun c acc => (Column.size c + 3 + acc)%Z) 0%Z columns.


(** The slot widths of a grouped row: consecutive groups of [k] columns,
    each of the sum of its columns' widths plus 3 * (k - 1). *)
Fixpoint group_widths {R : Type} (columns : list (Column.t R))
  (counts : list nat) : list Z :=
  match counts with
  | [] => []
  | k :: ks =>
      (sum_sizes (firstn k columns) + 3 * (Z.of_nat k - 1))%Z
      :: group_widths (skipn k columns) ks
  end.


(** The span counts of the groups of a [print_row] call, and their sum. *)
Definition counts (cols : list (Z * value)) : list nat :=
  map (fun g => Z.to_nat (fst g)) cols.

Definition span_total (cols : list (Z * value)) : Z :=
  fold_right (fun g acc => (fst g + acc)%Z) 0%Z cols.

Definition sum_Z (ws : list Z) : Z := fold_right Z.add 0%Z ws.

(** The slots of columns that keep their own width. *)
Definition own_slots {R : Type} (columns : list (Column.t R)) : list string :=
  map (fun c => RowPrinter.slot (Column.size c)) columns.

(** What the first loop of [MapPrinter.__init__] guarantees for a row. *)
Definition measured {R : Type} (max_name max_value max_title : Z)
  (row : Column.t R) : Prop :=
  if Column.is_header row then (Column.size row <= max_title)%Z
  else (Str.len (Column.name row) <= max_name)%Z
       /\ (Column.size row <= max_value)%Z.

(* ----------------------------------------------------------------- *)
(** ** Cells and groups, for the further properties *)

(** The cell a column shows for the display string [s]: the leftmost
    [size] characters, set in [size] columns under the column's
    alignment. *)
Definition cell_of {R : Type} (c : Column.t R) (s : string) : string :=
  aligned (alignment_of (Column.value_format c)) (Z.to_nat (Column.size c))
    (Str.take (Z.to_nat (Column.size c)) s).

(** The cells of a row of display strings, column by column. *)
Fixpoint cells_of {R : Type} (columns : list (Column.t R)) (ss : list string)
  : list string :=
  match columns, ss with
  | c :: cs, s :: ss' => cell_of c s :: cells_of cs ss'
  | _, _ => []
  end.


Definition is_int (v : value) : Prop := exists z, v = VInt z.


(** The length of the line a panel emits for a row: section headers span
    the full width, body rows the label and the value column. *)
Definition panel_row_length {R : Type} (max_name max_value max_width : Z)
  (row : Column.t R) : Z :=
  if Column.is_header row then (max_width + 4)%Z
  else (max_name + max_value + 7)%Z.

(** How a body row of a panel sets its label: centred for a centred row,
    right-aligned otherwise. *)
Definition label_alignment (al : alignment) : alignment :=
  match al with
  | Center => Center
  | _ => Right
  end.

(** The line a panel emits for a row that displays [s]. *)
Definition panel_line {R : Type} (max_name max_value max_width : Z)
  (row : Column.t R) (s : string) : string :=
  let al := alignment_of (Column.value_format row) in
  if Column.is_header row then
    line [aligned Center (Z.to_nat max_width) (cell_of row s)]
  else
    line [aligned (label_alignment al) (Z.to_nat max_name) (Column.name row);
          aligned al (Z.to_nat max_value) (cell_of row s)].

(* ================================================================= *)
(** * Facts about the string runtime *)

Section StringFacts.

Lemma append_nil_r (s : string) : s ++ "" = s.
Proof. induction s as [|c s IH]; simpl; [reflexivity | now rewrite IH]. Qed.

Lemma append_assoc (a b c : string) : (a ++ b) ++ c = a ++ b ++ c.
Proof. induction a as [|x a IH]; simpl; [reflexivity | now rewrite IH]. Qed.

Lemma length_append (a b : string) :
  String.length (a ++ b) = String.length a + String.length b.
Proof. induction a as [|x a IH]; simpl; [reflexivity | now rewrite IH]. Qed.

Lemma length_replicate (n : nat) (c : ascii) :
  String.length (Str.replicate n (String c "")) = n.
Proof. induction n as [|n IH]; simpl; [reflexivity | now rewrite IH]. Qed.

Lemma length_mul (c : ascii) (z : Z) :
  String.length (Str.mul (String c "") z) = Z.to_nat z.
Proof. apply length_replicate. Qed.

Lemma length_take (n : nat) (s : string) :
  String.length (Str.take n s) = Nat.min n (String.length s).
Proof.
  revert s; induction n as [|n IH]; intros [|c s]; simpl; try reflexivity.
  now rewrite IH.
Qed.

Lemma take_all (n : nat) (s : string) :
  String.length s <= n -> Str.take n s = s.
Proof.
  revert s; induction n as [|n IH]; intros [|c s]; simpl; intros H;
    try reflexivity; try lia.
  rewrite IH; [reflexivity | lia].
Qed.

Lemma drop_0 (s : string) : Str.drop 0 s = s.
Proof. now destruct s. Qed.

Lemma contains_append (c : ascii) (a b : string) :
  Str.contains c (a ++ b) = Str.contains c a || Str.contains c b.
Proof.
  induction a as [|x a IH]; simpl; [reflexivity|].
  now rewrite IH, orb_assoc.
Qed.

(** Slices of a string that already has the requested length. *)
Lemma slice_to_exact (s : string) (k : Z) :
  (0 <= k)%Z -> String.length s <= Z.to_nat k -> Str.slice_to s k = s.
Proof.
  intros Hk Hl. unfold Str.slice_to, Str.clip, Str.len.
  destruct (Z.ltb_spec k 0); [lia|].
  apply take_all. lia.
Qed.

Lemma slice_from_exact (s : string) (k : Z) :
  (0 <= k)%Z -> String.length s <= Z.to_nat k -> Str.slice_from s (- k) = s.
Proof.
  intros Hk Hl. unfold Str.slice_from, Str.clip, Str.len.
  destruct (Z.ltb_spec (- k) 0).
  - replace (Z.to_nat (Z.max (Z.of_nat (String.length s) + - k) 0)) with 0
      by lia.
    apply drop_0.
  - replace (Z.to_nat (Z.min (- k) (Z.of_nat (String.length s)))) with 0
      by lia.
    apply drop_0.
Qed.

End StringFacts.

Lemma length_join (sep : string) (parts : list string) :
  String.length (Str.join sep parts)
  = total_length parts + String.length sep * (List.length parts - 1).
Proof.
  unfold Str.join.
  induction parts as [|p ps IH]; simpl; [lia|].
  destruct ps as [|q ps]; [simpl; lia|].
  rewrite !length_append, IH. simpl. lia.
Qed.

(* ----------------------------------------------------------------- *)
(** ** Decimal digits *)

Lemma digits_only_uint (d : uint) :
  digits_only (NilEmpty.string_of_uint d) = true.
Proof. induction d; simpl; auto. Qed.

Lemma digits_only_of_nat (n : nat) : digits_only (Str.of_nat n) = true.
Proof. apply digits_only_uint. Qed.

Lemma get_integer_uint (d : uint) (rest : string) (acc k : nat) :
  no_digit_ahead rest ->
  Spec.get_integer (NilEmpty.string_of_uint d ++ rest) acc k
  = (Nat.of_uint_acc d acc,
     k + String.length (NilEmpty.string_of_uint d), rest).
Proof.
  intros Hrest. revert acc k.
  induction d; intros acc k;
    try (cbn [NilEmpty.string_of_uint append Spec.get_integer
              Nat.of_uint_acc String.length];
         match goal with
         | |- context [Spec.digit_value ?c] =>
             let v := eval vm_compute in (Spec.digit_value c) in
             change (Spec.digit_value c) with v
         end;
         cbv iota beta;
         rewrite IHd, Nat.tail_mul_spec;
         repeat match goal with |- (_, _) = (_, _) => f_equal end;
         [f_equal; lia | lia]).
  cbn [NilEmpty.string_of_uint append Nat.of_uint_acc String.length].
  rewrite Nat.add_0_r.
  destruct rest as [|c rest]; [reflexivity|].
  cbn [Spec.get_integer]. unfold no_digit_ahead, is_digit in Hrest.
  destruct (Spec.digit_value c); [discriminate | reflexivity].
Qed.

Lemma to_uint_nonnil (n : nat) : Nat.to_uint n <> Nil.
Proof.
  intros H.
  assert (Hn : n = 0)
    by (rewrite <- (DecimalNat.Unsigned.of_to n), H; reflexivity).
  subst n. discriminate H.
Qed.

Lemma length_of_nat_pos (n : nat) : 0 < String.length (Str.of_nat n).
Proof.
  unfold Str.of_nat. pose proof (to_uint_nonnil n) as H.
  destruct (Nat.to_uint n); simpl; try lia. congruence.
Qed.

Lemma get_integer_of_nat (n : nat) (rest : string) :
  no_digit_ahead rest ->
  Spec.get_integer (Str.of_nat n ++ rest) 0 0
  = (n, String.length (Str.of_nat n), rest).
Proof.
  intros H. unfold Str.of_nat. rewrite get_integer_uint by exact H.
  change (Nat.of_uint_acc (Nat.to_uint n) 0) with (Nat.of_uint (Nat.to_uint n)).
  now rewrite DecimalNat.Unsigned.of_to.
Qed.

Lemma nzhead_not_D0 (d u : uint) : nzhead d <> D0 u.
Proof. induction d; simpl; try discriminate; exact IHd. Qed.

(** A positive number is printed without a leading zero. *)
Lemma of_nat_head (n : nat) :
  0 < n ->
  exists c s, Str.of_nat n = String c s /\ is_digit c = true
              /\ Ascii.eqb c "0" = false /\ digits_only s = true.
Proof.
  intros Hn. unfold Str.of_nat.
  assert (Hnorm : Nat.to_uint n = unorm (Nat.to_uint n)).
  { rewrite <- (DecimalNat.Unsigned.of_to n) at 1.
    apply DecimalNat.Unsigned.to_of. }
  pose proof (digits_only_uint (Nat.to_uint n)) as Hd.
  destruct (Nat.to_uint n) as [|u|u|u|u|u|u|u|u|u|u] eqn:E;
    try (eexists _, _; simpl in Hd |- *;
         split; [reflexivity | split; [reflexivity | split; [reflexivity | exact Hd]]]).
  - exfalso. now apply (to_uint_nonnil n).
  - exfalso. unfold unorm in Hnorm.
    destruct (nzhead (D0 u)) eqn:En; try discriminate Hnorm.
    + injection Hnorm as ->.
      assert (n = 0)
        by (rewrite <- (DecimalNat.Unsigned.of_to n), E; reflexivity).
      lia.
    + now apply (nzhead_not_D0 (D0 u) u0).
Qed.

Lemma of_Z_nonneg (z : Z) : (0 <= z)%Z -> Str.of_Z z = Str.of_nat (Z.to_nat z).
Proof.
  intros H. unfold Str.of_Z. destruct (Z.ltb_spec z 0); [lia | reflexivity].
Qed.

(** What a digit is not. *)
Lemma digit_plain (c : ascii) :
  is_digit c = true ->
  Spec.is_alignment_token c = false /\ Spec.is_sign_element c = false
  /\ Ascii.eqb c "#" = false /\ Ascii.eqb c "," = false
  /\ Ascii.eqb c "_" = false /\ Ascii.eqb c "." = false
  /\ Ascii.eqb c "{" = false /\ Ascii.eqb c "}" = false.
Proof.
  destruct c as [[] [] [] [] [] [] [] []]; cbv; intros H;
    try discriminate H; repeat split.
Qed.

(* ----------------------------------------------------------------- *)
(** ** Parsing the specs the printers generate *)

Section ParseFacts.

Variable w : nat.
Hypothesis w_pos : 0 < w.

Lemma parse_sign_of_nat (rest : string) :
  Spec.parse_sign (Str.of_nat w ++ rest) = (None, Str.of_nat w ++ rest).
Proof.
  destruct (of_nat_head w w_pos) as (c & s & -> & Hc & _ & _).
  apply digit_plain in Hc as (_ & Hs & _). simpl. now rewrite Hs.
Qed.

Lemma parse_alt_of_nat (rest : string) :
  Spec.parse_flag "#" (Str.of_nat w ++ rest) = (false, Str.of_nat w ++ rest).
Proof.
  destruct (of_nat_head w w_pos) as (c & s & -> & Hc & _ & _).
  apply digit_plain in Hc as (_ & _ & Hs & _). simpl. now rewrite Hs.
Qed.

Lemma parse_zero_of_nat (rest : string) :
  Spec.parse_flag "0" (Str.of_nat w ++ rest) = (false, Str.of_nat w ++ rest).
Proof.
  destruct (of_nat_head w w_pos) as (c & s & -> & _ & Hz & _).
  simpl. now rewrite Hz.
Qed.

Lemma parse_fill_align_none (dal : ascii) (prec : bool) :
  Spec.parse_fill_align dal (Str.of_nat w ++ after_width w prec)
  = (" "%char, false, dal, false, Str.of_nat w ++ after_width w prec).
Proof.
  destruct (of_nat_head w w_pos) as (c & s & E & Hc & _ & Hs).
  rewrite E. apply digit_plain in Hc as (Hc & _).
  destruct s as [|c2 s]; simpl.
  - destruct prec; simpl; now rewrite Hc.
  - simpl in Hs. apply andb_prop in Hs as [Hc2 _].
    apply digit_plain in Hc2 as (Hc2 & _). now rewrite Hc2, Hc.
Qed.

Lemma parse_fill_align_mark (a : mark) (dal : ascii) (rest : string) :
  a <> MNone ->
  Spec.parse_fill_align dal (mark_str a ++ Str.of_nat w ++ rest)
  = (" "%char, false, mark_align a dal, true, Str.of_nat w ++ rest).
Proof.
  intros Ha.
  destruct (of_nat_head w w_pos) as (c & s & -> & Hc & _ & _).
  apply digit_plain in Hc as (Hc & _).
  destruct a; try congruence; simpl; now rewrite Hc.
Qed.

Lemma no_digit_after_width (prec : bool) : no_digit_ahead (after_width w prec).
Proof. destruct prec; simpl; auto. Qed.

Lemma parse_gen_spec (a : mark) (prec : bool) (ty dal : ascii) :
  Spec.parse (gen_spec a w prec) ty dal
  = Ok (Spec.mk " " (mark_align a dal) None false (Some w) false
          (if prec then Some w else None) ty).
Proof.
  unfold Spec.parse, gen_spec. fold (after_width w prec).
  assert (Hfa : exists given,
             Spec.parse_fill_align dal (mark_str a ++ Str.of_nat w ++ after_width w prec)
             = (" "%char, false, mark_align a dal, given,
                Str.of_nat w ++ after_width w prec)).
  { destruct a.
    - exists false. apply parse_fill_align_none.
    - exists true. now apply parse_fill_align_mark.
    - exists true. now apply parse_fill_align_mark.
    - exists true. now apply parse_fill_align_mark. }
  destruct Hfa as (given & ->).
  rewrite parse_sign_of_nat, parse_alt_of_nat, parse_zero_of_nat.
  rewrite get_integer_of_nat by apply no_digit_after_width.
  pose proof (length_of_nat_pos w) as Hlen.
  destruct (String.length (Str.of_nat w)) as [|n] eqn:El; [lia|].
  cbn [Nat.eqb andb].
  destruct prec; cbn [after_width Spec.parse_flag Spec.starts_with append
                       Ascii.eqb Bool.eqb andb orb bind].
  - rewrite <- (append_nil_r (Str.of_nat w)) at 1.
    rewrite get_integer_of_nat by exact I.
    rewrite El. reflexivity.
  - reflexivity.
Qed.

End ParseFacts.

(* ----------------------------------------------------------------- *)
(** ** Padding *)

Lemma length_pad (s : string) (w : nat) (fill al : ascii) :
  String.length (Fmt.pad s (Some w) fill al) = Nat.max w (String.length s).
Proof.
  unfold Fmt.pad, Fmt.calc_padding.
  set (t := Nat.max w (String.length s)).
  assert (Hdiv : (t - String.length s) / 2 <= t - String.length s)
    by (apply Nat.Div0.div_le_upper_bound; lia).
  assert (Ht : String.length s <= t) by (unfold t; lia).
  destruct al as [[] [] [] [] [] [] [] []];
    rewrite !length_append, !length_replicate; lia.
Qed.

Lemma pad_fits (s : string) (w : nat) (fill al : ascii) :
  w <= String.length s -> Fmt.pad s (Some w) fill al = s.
Proof.
  intros H. unfold Fmt.pad, Fmt.calc_padding.
  replace (Nat.max w (String.length s)) with (String.length s) by lia.
  rewrite Nat.sub_diag.
  destruct al as [[] [] [] [] [] [] [] []]; simpl; apply append_nil_r.
Qed.

Lemma pad_none (s : string) (fill al : ascii) : Fmt.pad s None fill al = s.
Proof.
  unfold Fmt.pad, Fmt.calc_padding. rewrite Nat.sub_diag.
  destruct al as [[] [] [] [] [] [] [] []]; simpl; apply append_nil_r.
Qed.

(** Left, right and centred padding, spelled out. *)
Lemma pad_left (s : string) (w : nat) :
  Fmt.pad s (Some w) " " "<"
  = s ++ Str.replicate (w - String.length s) " ".
Proof.
  unfold Fmt.pad, Fmt.calc_padding. simpl.
  now replace (Nat.max w (String.length s) - String.length s - 0)
    with (w - String.length s) by lia.
Qed.

Lemma pad_right (s : string) (w : nat) :
  Fmt.pad s (Some w) " " ">"
  = Str.replicate (w - String.length s) " " ++ s.
Proof.
  unfold Fmt.pad, Fmt.calc_padding.
  replace (Nat.max w (String.length s) - String.length s)
    with (w - String.length s) by lia.
  rewrite Nat.sub_diag. simpl. now rewrite append_nil_r.
Qed.

Lemma pad_center (s : string) (w : nat) :
  Fmt.pad s (Some w) " " "^"
  = Str.replicate ((w - String.length s) / 2) " " ++ s
    ++ Str.replicate (w - String.length s - (w - String.length s) / 2) " ".
Proof.
  unfold Fmt.pad, Fmt.calc_padding.
  now replace (Nat.max w (String.length s) - String.length s)
    with (w - String.length s) by lia.
Qed.

(* ----------------------------------------------------------------- *)
(** ** Formatting a value under a generated spec *)

Lemma gen_spec_nonempty (a : mark) (w : nat) (prec : bool) :
  gen_spec a w prec <> "".
Proof.
  intros H. apply (f_equal String.length) in H.
  unfold gen_spec in H. rewrite !length_append in H.
  pose proof (length_of_nat_pos w). simpl in H. lia.
Qed.

Lemma format_str_nonempty (s spec : string) :
  spec <> "" ->
  Fmt.format_str s spec
  = (f <- Spec.parse spec "s" "<" ;;
     if Spec.thousands f then Raise ValueError
     else if Ascii.eqb (Spec.type f) "s" then Fmt.format_string s f
     else Raise ValueError).
Proof. destruct spec; [congruence | reflexivity]. Qed.

Lemma format_int_nonempty (z : Z) (spec : string) :
  spec <> "" ->
  Fmt.format_int z spec
  = (f <- Spec.parse spec "d" ">" ;;
     if Ascii.eqb (Spec.type f) "d" then Fmt.format_long z f
     else if Fmt.other_int_type (Spec.type f) then Raise OutsideModel
     else Raise ValueError).
Proof. destruct spec; [congruence | reflexivity]. Qed.

(** A string under [[mark]w] is padded to [w]; under [[mark]w.w] it is
    first cut to its leftmost [w] characters. *)
Lemma format_str_gen (a : mark) (w : nat) (prec : bool) (s : string) :
  Fmt.format_str s (gen_spec a w prec)
  = Ok (Fmt.pad (if prec then Str.take w s else s) (Some w) " "
          (mark_align a "<")).
Proof.
  destruct w as [|w].
  - destruct prec.
    + destruct a; reflexivity.
    + rewrite pad_fits by lia.
      destruct a; cbn -[Fmt.pad]; now rewrite pad_none.
  - rewrite format_str_nonempty by apply gen_spec_nonempty.
    rewrite parse_gen_spec by lia.
    destruct a, prec; reflexivity.
Qed.

Lemma of_Z_sign_digits (z : Z) :
  (if (z <? 0)%Z then "-" else "") ++ Str.of_nat (Z.abs_nat z) = Str.of_Z z.
Proof.
  unfold Str.of_Z. destruct (Z.ltb_spec z 0).
  - now replace (Z.abs_nat z) with (Z.to_nat (- z)) by lia.
  - now replace (Z.abs_nat z) with (Z.to_nat z) by lia.
Qed.

(** An [int] under [w] is right-aligned in [w] columns. *)
Lemma format_int_width (w : nat) (z : Z) :
  Fmt.format_int z (gen_spec MNone w false)
  = Ok (Fmt.pad (Str.of_Z z) (Some w) " " ">").
Proof.
  destruct w as [|w].
  - rewrite pad_fits by lia.
    change (gen_spec MNone 0 false) with "0".
    cbn -[Str.of_nat Z.abs_nat Z.ltb]. rewrite Nat.sub_diag.
    cbn [Str.replicate append]. now rewrite of_Z_sign_digits.
  - rewrite format_int_nonempty by apply gen_spec_nonempty.
    rewrite parse_gen_spec by lia.
    cbn -[Str.of_nat Z.abs_nat Z.ltb Fmt.pad].
    now rewrite of_Z_sign_digits.
Qed.

(** An [int] is refused by a spec with a precision. *)
Lemma format_int_prec (a : mark) (w : nat) (z : Z) :
  Fmt.format_int z (gen_spec a w true) = Raise ValueError.
Proof.
  destruct w as [|w].
  - destruct a; reflexivity.
  - rewrite format_int_nonempty by apply gen_spec_nonempty.
    rewrite parse_gen_spec by lia.
    destruct a; reflexivity.
Qed.

(* ----------------------------------------------------------------- *)
(** ** Scanning a format string *)

Lemma brace_free_cons (c : ascii) (s : string) :
  brace_free (String c s) = true ->
  Ascii.eqb c "{" = false /\ Ascii.eqb c "}" = false /\ brace_free s = true.
Proof.
  unfold brace_free. cbn [Str.contains]. rewrite !negb_orb.
  rewrite (Ascii.eqb_sym "{" c), (Ascii.eqb_sym "}" c).
  intros H. apply andb_prop in H as [H1 H2].
  apply andb_prop in H1 as [H1 H1'], H2 as [H2 H2'].
  rewrite H1', H2'. apply negb_true_iff in H1, H2. auto.
Qed.

Lemma brace_free_append (a b : string) :
  brace_free a = true -> brace_free b = true -> brace_free (a ++ b) = true.
Proof.
  unfold brace_free. rewrite !contains_append, !negb_orb.
  intros Ha Hb.
  apply andb_prop in Ha as [-> ->], Hb as [-> ->]. reflexivity.
Qed.

Lemma digits_brace_free (s : string) :
  digits_only s = true -> brace_free s = true.
Proof.
  induction s as [|c s IH]; [reflexivity|]. cbn [digits_only]. intros H.
  apply andb_prop in H as [Hc Hs].
  apply digit_plain in Hc as (_ & _ & _ & _ & _ & _ & Hl & Hr).
  specialize (IH Hs). unfold brace_free in *. cbn [Str.contains].
  rewrite (Ascii.eqb_sym "{" c), (Ascii.eqb_sym "}" c), Hl, Hr. exact IH.
Qed.

Lemma brace_free_gen_spec (a : mark) (w : nat) (prec : bool) :
  brace_free (gen_spec a w prec) = true.
Proof.
  unfold gen_spec.
  pose proof (digits_brace_free _ (digits_only_of_nat w)) as Hd.
  repeat apply brace_free_append; try exact Hd.
  - now destruct a.
  - destruct prec; [|reflexivity].
    now apply (brace_free_append ".").
Qed.

Lemma step_text_plain (c : ascii) :
  Ascii.eqb c "{" = false -> Ascii.eqb c "}" = false ->
  Fmt.step Fmt.MText c = Fmt.Emit c Fmt.MText.
Proof.
  destruct c as [[] [] [] [] [] [] [] []]; cbv; intros H1 H2;
    try discriminate H1; try discriminate H2; reflexivity.
Qed.

Lemma step_spec_plain (name spec : string) (c : ascii) :
  Ascii.eqb c "{" = false -> Ascii.eqb c "}" = false ->
  Fmt.step (Fmt.MSpec name spec) c
  = Fmt.Goto (Fmt.MSpec name (spec ++ String c "")).
Proof.
  destruct c as [[] [] [] [] [] [] [] []]; cbn; intros H1 H2;
    try discriminate H1; try discriminate H2; reflexivity.
Qed.

Lemma rmap_rmap {A B C : Type} (f : A -> B) (g : B -> C) (r : result A) :
  rmap g (rmap f r) = rmap (fun a => g (f a)) r.
Proof. now destruct r. Qed.

(** Literal text is copied. *)
Lemma vformat_text (lit rest : string) (an : Fmt.autonumber)
  (args : list value) :
  brace_free lit = true ->
  Fmt.vformat Fmt.MText an args (lit ++ rest)
  = rmap (append lit) (Fmt.vformat Fmt.MText an args rest).
Proof.
  induction lit as [|c lit IH]; intros H.
  - simpl. now destruct (Fmt.vformat Fmt.MText an args rest).
  - apply brace_free_cons in H as (Hl & Hr & H).
    cbn [append Fmt.vformat]. rewrite step_text_plain by assumption.
    rewrite IH by exact H. now rewrite rmap_rmap.
Qed.

(** Inside a format spec the scanner collects up to the closing brace. *)
Lemma vformat_spec (name acc spec rest : string) (an : Fmt.autonumber)
  (args : list value) :
  brace_free spec = true ->
  Fmt.vformat (Fmt.MSpec name acc) an args (spec ++ String "}" rest)
  = (va <- Fmt.get_field name an args ;;
     out <- Fmt.format_value (fst va) (acc ++ spec) ;;
     rmap (append out) (Fmt.vformat Fmt.MText (snd va) args rest)).
Proof.
  revert acc. induction spec as [|c spec IH]; intros acc H.
  - rewrite append_nil_r. reflexivity.
  - apply brace_free_cons in H as (Hl & Hr & H).
    cbn [append Fmt.vformat]. rewrite step_spec_plain by assumption.
    rewrite IH by exact H. now rewrite append_assoc.
Qed.

Lemma vformat_tok (spec rest : string) (an : Fmt.autonumber)
  (args : list value) :
  brace_free spec = true ->
  Fmt.vformat Fmt.MText an args (tok spec ++ rest)
  = (va <- Fmt.get_field "" an args ;;
     out <- Fmt.format_value (fst va) spec ;;
     rmap (append out) (Fmt.vformat Fmt.MText (snd va) args rest)).
Proof.
  intros H. unfold tok. rewrite !append_assoc.
  cbn [append Fmt.vformat Fmt.step Fmt.in_name].
  now rewrite (vformat_spec "" "" spec rest an args H).
Qed.

(* ----------------------------------------------------------------- *)
(** ** Lines of cells *)

Lemma join_more (p : string) (ps : list string) :
  Str.join " | " (p :: ps) ++ " |" = p ++ more ps.
Proof.
  unfold Str.join. revert p. induction ps as [|q ps IH]; intros p.
  - reflexivity.
  - change (String.concat " | " (p :: q :: ps))
      with (p ++ " | " ++ String.concat " | " (q :: ps)).
    rewrite !append_assoc, IH. reflexivity.
Qed.

Lemma line_cons (p : string) (ps : list string) :
  line (p :: ps) = "| " ++ p ++ more ps.
Proof. unfold line. now rewrite join_more. Qed.

Lemma length_line (parts : list string) :
  parts <> [] ->
  Str.len (line parts)
  = (4 + Z.of_nat (total_length parts)
     + 3 * (Z.of_nat (List.length parts) - 1))%Z.
Proof.
  intros H. unfold Str.len, line.
  rewrite !length_append, length_join.
  change (String.length "| ") with 2. change (String.length " | ") with 3.
  change (String.length " |") with 2.
  destruct parts as [|p ps]; [congruence|]. cbn [List.length]. lia.
Qed.

(** One replacement field under automatic numbering. *)
Lemma vformat_cell (sp rest : string) (pre vs : list value)
  (an : Fmt.autonumber) :
  brace_free sp = true ->
  Fmt.an_st an <> Fmt.ANS_MANUAL ->
  Fmt.an_field_number an = List.length pre ->
  Fmt.vformat Fmt.MText an (pre ++ vs)%list (tok sp ++ rest)
  = match vs with
    | [] => Raise IndexError
    | v :: vs' =>
        out <- Fmt.format_value v sp ;;
        rmap (append out)
          (Fmt.vformat Fmt.MText (Fmt.mk_an Fmt.ANS_AUTO (S (List.length pre)))
             ((pre ++ [v]) ++ vs')%list rest)
    end.
Proof.
  intros Hsp Han Hk. rewrite vformat_tok by exact Hsp.
  unfold Fmt.get_field. cbn [Str.contains]. rewrite Hk.
  assert (Hnth : nth_error (pre ++ vs)%list (List.length pre)
                 = match vs with [] => None | v :: _ => Some v end).
  { rewrite nth_error_app2 by lia. rewrite Nat.sub_diag. now destruct vs. }
  rewrite Hnth.
  destruct (Fmt.an_st an); try congruence;
    (destruct vs as [|v vs']; [reflexivity|]; cbn [bind fst snd];
     now rewrite <- List.app_assoc).
Qed.

Lemma vformat_more (specs : list string) :
  Forall (fun sp => brace_free sp = true) specs ->
  forall (vs pre : list value) (an : Fmt.autonumber),
    Fmt.an_st an <> Fmt.ANS_MANUAL ->
    Fmt.an_field_number an = List.length pre ->
    Fmt.vformat Fmt.MText an (pre ++ vs)%list (more (map tok specs))
    = rmap more (render_cells specs vs).
Proof.
  induction 1 as [|sp specs Hsp _ IH]; intros vs pre an Han Hk.
  - reflexivity.
  - cbn [map more render_cells].
    rewrite (vformat_text " | ") by reflexivity.
    rewrite vformat_cell by assumption.
    destruct vs as [|v vs']; [reflexivity|].
    destruct (Fmt.format_value v sp) as [out|e]; [|reflexivity].
    cbn [bind].
    rewrite IH
      by (cbn; first [congruence | rewrite length_app; simpl; lia]).
    destruct (render_cells specs vs'); reflexivity.
Qed.

(** Formatting a line of generated fields renders its cells. *)
Lemma format_line (specs : list string) (vs : list value) :
  Forall (fun sp => brace_free sp = true) specs ->
  Fmt.format (line (map tok specs)) vs = rmap line (render_cells specs vs).
Proof.
  intros H. unfold Fmt.format.
  destruct H as [|sp specs Hsp H]; [reflexivity|].
  cbn [map render_cells]. rewrite line_cons.
  rewrite (vformat_text "| ") by reflexivity.
  rewrite (vformat_cell sp _ [] vs) by (auto; cbn; congruence).
  destruct vs as [|v vs']; [reflexivity|].
  destruct (Fmt.format_value v sp) as [out|e]; [|reflexivity].
  cbn [bind].
  rewrite (vformat_more specs H vs' ([] ++ [v])%list)
    by (cbn; congruence).
  destruct (render_cells specs vs') as [outs|e]; [|reflexivity].
  cbn [rmap bind]. now rewrite line_cons.
Qed.

(** Cells that come out with prescribed widths. *)
Lemma render_cells_widths (slots : list (string * nat)) (vs : list value) :
  Forall2 (fun sl v => exists out, Fmt.format_value v (fst sl) = Ok out
                                   /\ String.length out = snd sl) slots vs ->
  exists cells, render_cells (map fst slots) vs = Ok cells
                /\ map String.length cells = map snd slots.
Proof.
  induction 1 as [|sl v slots vs (out & Hout & Hlen) _ (cells & Hc & Hw)].
  - exists []. split; reflexivity.
  - exists (out :: cells). cbn [map render_cells].
    rewrite Hout, Hc. cbn. split; [reflexivity | now rewrite Hlen, Hw].
Qed.

Lemma total_length_widths (cells : list string) :
  total_length cells = list_sum (map String.length cells).
Proof. induction cells as [|c cs IH]; simpl; [reflexivity | now rewrite IH]. Qed.

Lemma format_tok (spec : string) (v : value) :
  brace_free spec = true ->
  Fmt.format (tok spec) [v] = Fmt.format_value v spec.
Proof.
  intros H. unfold Fmt.format.
  rewrite <- (append_nil_r (tok spec)).
  rewrite (vformat_cell spec "" [] [v]) by (auto; cbn; congruence).
  destruct (Fmt.format_value v spec) as [out|e]; [|reflexivity].
  cbn. now rewrite append_nil_r.
Qed.

(* ================================================================= *)
(** * [Column] *)

Lemma length_aligned (al : alignment) (w : nat) (s : string) :
  String.length (aligned al w s) = Nat.max w (String.length s).
Proof.
  unfold aligned.
  assert ((w - String.length s) / 2 <= w - String.length s)
    by (apply Nat.Div0.div_le_upper_bound; lia).
  destruct al; rewrite !length_append, !length_replicate; lia.
Qed.

Section ColumnFacts.

Context {R : Type}.

Lemma template_gen (a : mark) (z : Z) :
  (0 <= z)%Z ->
  Column.template (mark_str a) z = tok (gen_spec a (Z.to_nat z) true).
Proof.
  intros H. unfold Column.template, tok, gen_spec.
  rewrite of_Z_nonneg by exact H. now rewrite !append_assoc.
Qed.

Lemma constructed_size (c : Column.t R) :
  constructed c -> (0 <= Str.len (Column.name c) <= Column.size c)%Z.
Proof.
  intros [k g w f n]. unfold Column.init, Str.len.
  cbn [Column.size Column.name]. lia.
Qed.

Lemma constructed_format (c : Column.t R) :
  constructed c -> Column.format c = tok (column_spec c).
Proof.
  intros [k g w f n]. unfold column_spec, column_mark, Column.init.
  cbn [Column.size Column.format Column.value_format].
  assert (0 <= Z.max w (Str.len n))%Z by (unfold Str.len; lia).
  destruct f as [f|].
  - destruct (Str.contains ">" f); [now apply (template_gen MRight)|].
    destruct (Str.contains "^" f);
      [now apply (template_gen MCenter) | now apply (template_gen MLeft)].
  - now apply (template_gen MNone).
Qed.

Lemma column_mark_alignment (c : Column.t R) (s : string) (w : nat) :
  Fmt.pad s (Some w) " " (mark_align (column_mark c) "<")
  = aligned (alignment_of (Column.value_format c)) w s.
Proof.
  unfold column_mark, alignment_of, aligned.
  destruct (Column.value_format c) as [f|].
  - destruct (Str.contains ">" f); [apply pad_right|].
    destruct (Str.contains "^" f); [apply pad_center | apply pad_left].
  - apply pad_left.
Qed.

(** A string cell of a column: cut to the leftmost [size] characters and
    set in [size] columns. *)
Lemma column_cell (c : Column.t R) (s : string) :
  Fmt.format_value (VStr s) (column_spec c)
  = Ok (aligned (alignment_of (Column.value_format c))
          (Z.to_nat (Column.size c))
          (Str.take (Z.to_nat (Column.size c)) s)).
Proof.
  unfold column_spec. cbn [Fmt.format_value].
  now rewrite format_str_gen, column_mark_alignment.
Qed.

Lemma length_column_cell (c : Column.t R) (s : string) :
  String.length (aligned (alignment_of (Column.value_format c))
                   (Z.to_nat (Column.size c))
                   (Str.take (Z.to_nat (Column.size c)) s))
  = Z.to_nat (Column.size c).
Proof. rewrite length_aligned, length_take. lia. Qed.

(** An [int] cell is refused: the template carries a precision. *)
Lemma column_cell_int (c : Column.t R) (z : Z) :
  Fmt.format_value (VInt z) (column_spec c) = Raise ValueError.
Proof. apply format_int_prec. Qed.

End ColumnFacts.

(* ================================================================= *)
(** * [RowPrinter] *)

Section RowPrinterFacts.

Context {R : Type}.

Lemma formats_constructed (columns : list (Column.t R)) :
  Forall constructed columns ->
  map Column.format columns = map tok (map column_spec columns).
Proof.
  induction 1 as [|c cs Hc _ IH]; [reflexivity|].
  cbn [map]. now rewrite IH, constructed_format.
Qed.

Lemma column_specs_brace_free (columns : list (Column.t R)) :
  Forall (fun sp => brace_free sp = true) (map column_spec columns).
Proof.
  induction columns as [|c cs IH]; constructor; [|exact IH].
  apply brace_free_gen_spec.
Qed.

(** String cells under the columns' templates all have their column's
    width. *)
Lemma render_column_cells (columns : list (Column.t R)) :
  forall ss : list string,
    List.length ss = List.length columns ->
    exists cells,
      render_cells (map column_spec columns) (map VStr ss) = Ok cells
      /\ map String.length cells
         = map (fun c => Z.to_nat (Column.size c)) columns.
Proof.
  induction columns as [|c cs IH]; intros ss Hlen.
  - exists []. split; reflexivity.
  - destruct ss as [|s ss]; [discriminate Hlen|].
    destruct (IH ss) as (cells & Hc & Hw); [simpl in Hlen; lia|].
    eexists (_ :: cells). cbn [map render_cells].
    rewrite column_cell, Hc. cbn [bind]. split; [reflexivity|].
    cbn [map]. now rewrite length_column_cell, Hw.
Qed.

Lemma sum_sizes_widths (columns : list (Column.t R)) :
  Forall constructed columns ->
  Z.of_nat (list_sum (map (fun c => Z.to_nat (Column.size c)) columns))
  = sum_sizes columns.
Proof.
  induction 1 as [|c cs Hc _ IH]; [reflexivity|].
  apply constructed_size in Hc.
  unfold sum_sizes, list_sum in *. cbn [map fold_right]. lia.
Qed.

(** A line whose cells have the columns' widths has the row length. *)
Lemma length_line_columns (columns : list (Column.t R)) (cells : list string) :
  Forall constructed columns -> columns <> [] ->
  map String.length cells = map (fun c => Z.to_nat (Column.size c)) columns ->
  Str.len (line cells) = row_length columns.
Proof.
  intros Hc Hne Hw. unfold row_length.
  assert (Hn : List.length cells = List.length columns)
    by (rewrite <- (length_map String.length cells), Hw; apply length_map).
  rewrite length_line by (destruct cells, columns; try discriminate; congruence).
  now rewrite total_length_widths, Hw, sum_sizes_widths, Hn.
Qed.

Lemma length_sep_str (columns : list (Column.t R)) :
  Forall constructed columns -> columns <> [] ->
  Str.len ("+-" ++ Str.join "-+-"
             (map (fun c => Str.mul "-" (Column.size c)) columns) ++ "-+")
  = row_length columns.
Proof.
  intros Hc Hne. unfold Str.len, row_length.
  rewrite !length_append, length_join, length_map.
  change (String.length "+-") with 2. change (String.length "-+-") with 3.
  change (String.length "-+") with 2.
  assert (Ht : total_length (map (fun c => Str.mul "-" (Column.size c)) columns)
               = list_sum (map (fun c => Z.to_nat (Column.size c)) columns)).
  { clear. induction columns as [|c cs IH]; [reflexivity|].
    cbn [map total_length list_sum]. now rewrite IH, length_mul. }
  rewrite Ht. rewrite <- (sum_sizes_widths columns Hc).
  destruct columns; [congruence|]. cbn [List.length]. lia.
Qed.

(** The data-row template of constructed columns, applied to strings. *)
Lemma format_row_strings (columns : list (Column.t R)) (ss : list string) :
  Forall constructed columns -> columns <> [] ->
  List.length ss = List.length columns ->
  exists l,
    Fmt.format ("| " ++ Str.join " | " (map Column.format columns) ++ " |")
      (map VStr ss) = Ok l
    /\ Str.len l = row_length columns.
Proof.
  intros Hc Hne Hlen.
  fold (line (map Column.format columns)).
  rewrite formats_constructed by exact Hc.
  rewrite format_line by apply column_specs_brace_free.
  destruct (render_column_cells columns ss Hlen) as (cells & -> & Hw).
  exists (line cells). split; [reflexivity|].
  now apply length_line_columns.
Qed.

(** [__init__] does not raise on constructed columns. *)
Lemma init_ok (columns : list (Column.t R)) :
  Forall constructed columns -> columns <> [] ->
  exists h,
    RowPrinter.init columns
    = Ok (RowPrinter.mk columns
            ("| " ++ Str.join " | " (map Column.format columns) ++ " |")
            ("+-" ++ Str.join "-+-"
               (map (fun c => Str.mul "-" (Column.size c)) columns) ++ "-+")
            h)
    /\ Str.len h = row_length columns.
Proof.
  intros Hc Hne.
  destruct (format_row_strings columns (map Column.name columns) Hc Hne)
    as (h & Hh & Hl); [apply length_map|].
  exists h. unfold RowPrinter.init. rewrite map_map in Hh.
  rewrite map_map, Hh. split; [reflexivity | exact Hl].
Qed.

Lemma mapM_strings (columns : list (Column.t R)) (args : R) :
  displays_strings columns args ->
  exists ss, mapM (fun c => Column.get_str c args) columns = Ok (map VStr ss)
             /\ List.length ss = List.length columns.
Proof.
  induction 1 as [|c cs (s & Hs) _ (ss & Hss & Hl)].
  - exists []. split; reflexivity.
  - exists (s :: ss). cbn [mapM]. rewrite Hs, Hss.
    split; [reflexivity | simpl; lia].
Qed.

End RowPrinterFacts.

(* ================================================================= *)
(** * [MapPrinter] *)

Section MapPrinterFacts.

Context {R : Type}.

(** The guard of the widening in [__init__] holds only when the
    assignment changes nothing: the value column keeps its width. *)
Lemma widths_unwidened (rows : list (Column.t R)) :
  MapPrinter.widths rows
  = let '(max_name, max_value, max_title) := MapPrinter.measure rows 0 0 0 in
    (max_name, max_value, Z.max max_title (max_value + max_name + 3)).
Proof.
  unfold MapPrinter.widths.
  destruct (MapPrinter.measure rows 0 0 0) as [[max_name max_value] max_title].
  destruct (Z.gtb_spec (Z.max max_title (max_value + max_name + 3)) max_title);
    repeat f_equal; lia.
Qed.

(** The text a row puts in its cell is, for every alignment, the display
    string cut to its leftmost [size] characters and set in [size]
    columns: the slices of [print_data] find a string that already has
    [size] characters. *)
Lemma value_str_cell (mp : MapPrinter.t R) (row : Column.t R) (args : R)
  (s : string) :
  constructed row ->
  Column.get_str row args = Ok (VStr s) ->
  exists template,
    MapPrinter.value_str mp row args
    = Ok (template,
          aligned (alignment_of (Column.value_format row))
            (Z.to_nat (Column.size row))
            (Str.take (Z.to_nat (Column.size row)) s)).
Proof.
  intros Hc Hget. unfold MapPrinter.value_str. rewrite Hget. cbn [bind].
  pose proof (constructed_size row Hc) as Hsz.
  rewrite (constructed_format row Hc).
  rewrite format_tok by apply brace_free_gen_spec.
  rewrite column_cell. cbn [bind].
  pose proof (length_column_cell row s) as Hlen.
  rewrite slice_from_exact, slice_to_exact by lia.
  destruct (Str.contains ">" (tok (column_spec row)));
    [|destruct (Str.contains "^" (tok (column_spec row)))];
    eexists; reflexivity.
Qed.

(** When the display string overflows the width, the cell is exactly its
    leftmost [size] characters, whatever the alignment. *)
Lemma value_str_overflow (mp : MapPrinter.t R) (row : Column.t R) (args : R)
  (s : string) :
  constructed row ->
  Column.get_str row args = Ok (VStr s) ->
  (Column.size row < Str.len s)%Z ->
  exists template,
    MapPrinter.value_str mp row args
    = Ok (template, Str.take (Z.to_nat (Column.size row)) s).
Proof.
  intros Hc Hget Hlong.
  destruct (value_str_cell mp row args s Hc Hget) as (template & ->).
  exists template. do 2 f_equal.
  set (w := Z.to_nat (Column.size row)).
  assert (Hw : String.length (Str.take w s) = w).
  { rewrite length_take. unfold Str.len in Hlong. lia. }
  unfold aligned. rewrite Hw, Nat.sub_diag.
  destruct (alignment_of (Column.value_format row)); cbn;
    now rewrite ?append_nil_r.
Qed.

End MapPrinterFacts.

(* ================================================================= *)
(** * Slots without precision: [print_spanned] and [print_row] *)

Lemma slot_gen (w : Z) :
  (0 <= w)%Z -> RowPrinter.slot w = tok (slot_spec w).
Proof.
  intros H. unfold RowPrinter.slot, tok, slot_spec, gen_spec.
  rewrite of_Z_nonneg by exact H. cbn [mark_str append].
  now rewrite append_nil_r.
Qed.

(** A slot pads and never cuts: the cell is as long as the longer of the
    slot and the value's string, and is that string when it does not
    fit in less than the slot. *)
Lemma slot_cell (v : value) (w : Z) :
  exists out,
    Fmt.format_value v (slot_spec w) = Ok out
    /\ String.length out = Nat.max (Z.to_nat w) (String.length (py_str v))
    /\ (Z.to_nat w <= String.length (py_str v) -> out = py_str v).
Proof.
  unfold slot_spec. destruct v as [s|z]; cbn [Fmt.format_value py_str].
  - rewrite format_str_gen. eexists. split; [reflexivity|].
    split; [apply length_pad | apply pad_fits].
  - rewrite format_int_width. eexists. split; [reflexivity|].
    split; [apply length_pad | apply pad_fits].
Qed.

Lemma slot_cell_fits (v : value) (w : Z) :
  (0 <= w)%Z -> fits v w ->
  exists out, Fmt.format_value v (fst (slot_spec w, Z.to_nat w)) = Ok out
              /\ String.length out = snd (slot_spec w, Z.to_nat w).
Proof.
  intros Hw Hfit. destruct (slot_cell v w) as (out & Hout & Hlen & _).
  exists out. split; [exact Hout|]. cbn [snd]. rewrite Hlen.
  unfold fits, Str.len in Hfit. lia.
Qed.

Lemma slot_specs_brace_free (ws : list Z) :
  Forall (fun sp => brace_free sp = true) (map slot_spec ws).
Proof.
  induction ws as [|w ws IH]; constructor; [|exact IH].
  apply brace_free_gen_spec.
Qed.

Lemma sum_Z_lengths (cells : list string) (ws : list Z) :
  Forall (fun w => (0 <= w)%Z) ws ->
  map String.length cells = map Z.to_nat ws ->
  Z.of_nat (total_length cells) = sum_Z ws /\ map Str.len cells = ws.
Proof.
  intros Hws. revert cells.
  induction Hws as [|w ws Hw _ IH]; intros [|c cells] H; try discriminate H.
  - split; reflexivity.
  - cbn [map] in H. injection H as Hc Hcs.
    destruct (IH cells Hcs) as [Ht Hm].
    cbn [total_length map sum_Z fold_right]. fold (sum_Z ws).
    unfold Str.len at 1. rewrite Hm. split; [lia | f_equal; lia].
Qed.

(** A row of slots, one fitting value per slot. *)
Lemma format_slots (ws : list Z) (data : list value) :
  Forall (fun w => (0 <= w)%Z) ws ->
  Forall2 fits data ws ->
  exists cells,
    Fmt.format (line (map RowPrinter.slot ws)) data = Ok (line cells)
    /\ map Str.len cells = ws
    /\ (ws <> [] ->
        Str.len (line cells)
        = (4 + sum_Z ws + 3 * (Z.of_nat (List.length ws) - 1))%Z).
Proof.
  intros Hws Hfit.
  assert (Hslots : map RowPrinter.slot ws = map tok (map slot_spec ws)).
  { rewrite map_map. apply map_ext_Forall.
    eapply Forall_impl; [|exact Hws]. intros w Hw. now apply slot_gen. }
  rewrite Hslots, format_line by apply slot_specs_brace_free.
  destruct (render_cells_widths (map (fun w => (slot_spec w, Z.to_nat w)) ws) data)
    as (cells & Hcells & Hw).
  { clear Hslots. induction Hfit as [|v w data ws Hv _ IH]; cbn [map].
    - constructor.
    - inversion Hws; subst. constructor; [now apply slot_cell_fits | now apply IH]. }
  rewrite !map_map in Hcells, Hw. cbn [fst snd] in Hcells, Hw.
  assert (Hcells' : render_cells (map slot_spec ws) data = Ok cells)
    by exact Hcells.
  assert (Hw' : map String.length cells = map Z.to_nat ws) by exact Hw.
  clear Hcells Hw. rename Hw' into Hw.
  rewrite Hcells'. exists cells. split; [reflexivity|].
  destruct (sum_Z_lengths cells ws Hws Hw) as [Ht Hm].
  split; [exact Hm|]. intros Hne.
  rewrite length_line by (destruct cells, ws; try discriminate; congruence).
  assert (List.length cells = List.length ws)
    by (rewrite <- (length_map String.length cells), Hw; apply length_map).
  lia.
Qed.

Section SpannedFacts.

Context {R : Type}.

Lemma sum_sizes_app (xs ys : list (Column.t R)) :
  sum_sizes (xs ++ ys) = (sum_sizes xs + sum_sizes ys)%Z.
Proof.
  unfold sum_sizes. induction xs as [|x xs IH]; cbn [List.app fold_right]; lia.
Qed.

Lemma span_sum_sizes (xs : list (Column.t R)) :
  span_sum xs = (sum_sizes xs + 3 * Z.of_nat (List.length xs))%Z.
Proof.
  unfold span_sum, sum_sizes.
  induction xs as [|x xs IH]; cbn [fold_right List.length]; lia.
Qed.

Lemma sum_sizes_nonneg (xs : list (Column.t R)) :
  Forall constructed xs -> (0 <= sum_sizes xs)%Z.
Proof.
  unfold sum_sizes. induction 1 as [|x xs Hx _ IH]; cbn [fold_right]; [lia|].
  apply constructed_size in Hx. lia.
Qed.

Lemma sizes_nonneg (xs : list (Column.t R)) :
  Forall constructed xs -> Forall (fun w => (0 <= w)%Z) (map Column.size xs).
Proof.
  induction 1 as [|x xs Hx _ IH]; constructor; [|exact IH].
  apply constructed_size in Hx. lia.
Qed.







Lemma sum_Z_sizes (xs : list (Column.t R)) :
  sum_Z (map Column.size xs) = sum_sizes xs.
Proof.
  unfold sum_Z, sum_sizes. induction xs as [|x xs IH]; cbn [map fold_right]; lia.
Qed.


End SpannedFacts.

Section GroupFacts.

Context {R : Type}.

Lemma py_index_nat (columns : list (Column.t R)) (i idx : nat) :
  py_index columns (Z.of_nat i + Z.of_nat idx) = nth_error columns (i + idx).
Proof.
  unfold py_index.
  destruct (Z.ltb_spec (Z.of_nat i + Z.of_nat idx) 0); [lia|].
  f_equal. lia.
Qed.

Lemma skipn_nth (columns : list (Column.t R)) :
  forall (j : nat) (c : Column.t R),
    nth_error columns j = Some c -> skipn j columns = c :: skipn (S j) columns.
Proof.
  induction columns as [|x xs IH]; intros [|j] c H; try discriminate H.
  - now injection H as ->.
  - cbn [nth_error] in H. rewrite skipn_cons, (IH j c H). reflexivity.
Qed.

(** The inner loop of [print_row] over columns that exist. *)
Lemma group_span_ok (columns : list (Column.t R)) (idx : nat) :
  forall (k i : nat) (spanned : Z),
    i + idx + k <= List.length columns ->
    RowPrinter.group_span columns (Z.of_nat idx) (Z.of_nat i) k spanned
    = Ok (spanned + span_sum (firstn k (skipn (i + idx) columns)))%Z.
Proof.
  induction k as [|k IH]; intros i spanned H.
  - cbn. now rewrite Z.add_0_r.
  - cbn [RowPrinter.group_span]. rewrite py_index_nat.
    destruct (nth_error columns (i + idx)) as [c|] eqn:E.
    + replace (Z.of_nat i + 1)%Z with (Z.of_nat (S i)) by lia.
      rewrite IH by lia. rewrite (skipn_nth columns (i + idx) c E).
      cbn [firstn]. unfold span_sum. cbn [fold_right plus].
      f_equal. lia.
    + apply nth_error_None in E. lia.
Qed.

(** The inner loop running past the last column. *)
Lemma group_span_overflow (columns : list (Column.t R)) (idx : nat) :
  forall (k i : nat) (spanned : Z),
    i + idx <= List.length columns ->
    List.length columns < i + idx + k ->
    RowPrinter.group_span columns (Z.of_nat idx) (Z.of_nat i) k spanned
    = Raise IndexError.
Proof.
  induction k as [|k IH]; intros i spanned H1 H2; [lia|].
  cbn [RowPrinter.group_span]. rewrite py_index_nat.
  destruct (nth_error columns (i + idx)) as [c|] eqn:E; [|reflexivity].
  assert (i + idx < List.length columns)
    by (apply nth_error_Some; congruence).
  replace (Z.of_nat i + 1)%Z with (Z.of_nat (S i)) by lia.
  apply IH; lia.
Qed.

Lemma span_total_counts (cols : list (Z * value)) :
  Forall (fun g => (0 <= fst g)%Z) cols ->
  Z.of_nat (list_sum (counts cols)) = span_total cols.
Proof.
  unfold counts, span_total, list_sum.
  induction 1 as [|g gs Hg _ IH]; cbn [map fold_right]; lia.
Qed.

Lemma length_counts (cols : list (Z * value)) :
  List.length (counts cols) = List.length cols.
Proof. apply length_map. Qed.

(** The outer loop of [print_row] while the groups stay inside the
    table. *)
Lemma row_formats_ok (columns : list (Column.t R)) :
  forall (cols : list (Z * value)) (idx : nat) (formats : list string)
         (values : list value),
    Forall (fun g => (0 <= fst g)%Z) cols ->
    (Z.of_nat idx + span_total cols <= Z.of_nat (List.length columns))%Z ->
    RowPrinter.row_formats columns cols (Z.of_nat idx) formats values
    = Ok ((formats
           ++ map RowPrinter.slot
                (group_widths (skipn idx columns) (counts cols)))%list,
          (values ++ map snd cols)%list).
Proof.
  induction cols as [|[size v] cols IH]; intros idx formats values Hpos Hlen.
  - cbn. now rewrite !List.app_nil_r.
  - inversion Hpos as [|g gs Hsize Hrest]; subst. cbn [fst] in Hsize.
    unfold span_total in Hlen. cbn [fold_right fst] in Hlen.
    fold (span_total cols) in Hlen.
    assert (Hcols : (0 <= span_total cols)%Z)
      by (rewrite <- span_total_counts by exact Hrest; lia).
    cbn [RowPrinter.row_formats].
    rewrite (group_span_ok columns idx (Z.to_nat size) 0) by lia.
    cbn [bind].
    replace (Z.of_nat idx + size)%Z with (Z.of_nat (idx + Z.to_nat size)) by lia.
    rewrite IH by (try assumption; lia).
    cbn [counts map fst snd group_widths plus].
    rewrite skipn_skipn, (Nat.add_comm (Z.to_nat size) idx).
    rewrite <- !List.app_assoc. cbn [List.app].
    rewrite span_sum_sizes, length_firstn, length_skipn.
    match goal with
    | |- context [RowPrinter.slot ?a :: _] =>
        replace a with (sum_sizes (firstn (Z.to_nat size) (skipn idx columns))
                        + 3 * (Z.of_nat (Z.to_nat size) - 1))%Z by lia
    end.
    reflexivity.
Qed.

(** The outer loop when the groups reach past the last column. *)
Lemma row_formats_overflow (columns : list (Column.t R)) :
  forall (cols : list (Z * value)) (idx : nat) (formats : list string)
         (values : list value),
    Forall (fun g => (0 <= fst g)%Z) cols ->
    idx <= List.length columns ->
    (Z.of_nat (List.length columns) < Z.of_nat idx + span_total cols)%Z ->
    RowPrinter.row_formats columns cols (Z.of_nat idx) formats values
    = Raise IndexError.
Proof.
  induction cols as [|[size v] cols IH]; intros idx formats values Hpos H1 H2.
  - cbn in H2. lia.
  - inversion Hpos as [|g gs Hsize Hrest]; subst. cbn [fst] in Hsize.
    unfold span_total in H2. cbn [fold_right fst] in H2.
    fold (span_total cols) in H2.
    cbn [RowPrinter.row_formats].
    destruct (Nat.le_gt_cases (idx + Z.to_nat size) (List.length columns)).
    + rewrite (group_span_ok columns idx (Z.to_nat size) 0) by lia.
      cbn [bind].
      replace (Z.of_nat idx + size)%Z
        with (Z.of_nat (idx + Z.to_nat size)) by lia.
      apply IH; try assumption; lia.
    + now rewrite (group_span_overflow columns idx (Z.to_nat size) 0) by lia.
Qed.

Lemma firstn_add_split (xs : list (Column.t R)) :
  forall k m : nat,
    firstn (k + m) xs = (firstn k xs ++ firstn m (skipn k xs))%list.
Proof.
  induction xs as [|x xs IH]; intros [|k] m; cbn [plus firstn skipn List.app];
    try reflexivity.
  - now rewrite firstn_nil.
  - now rewrite IH.
Qed.

Lemma length_group_widths (columns : list (Column.t R)) (cnts : list nat) :
  List.length (group_widths columns cnts) = List.length cnts.
Proof.
  revert columns. induction cnts as [|k ks IH]; intros columns;
    cbn [group_widths List.length]; [reflexivity | now rewrite IH].
Qed.

(** The widths of the groups add up to the widths of the columns they
    consume, with the separators the groups absorb. *)
Lemma group_widths_total (cnts : list nat) :
  forall columns : list (Column.t R),
    list_sum cnts <= List.length columns ->
    sum_Z (group_widths columns cnts)
    = (sum_sizes (firstn (list_sum cnts) columns)
       + 3 * (Z.of_nat (list_sum cnts) - Z.of_nat (List.length cnts)))%Z.
Proof.
  induction cnts as [|k ks IH]; intros columns H.
  - reflexivity.
  - cbn [list_sum fold_right] in H. fold (list_sum ks) in H.
    cbn [group_widths sum_Z fold_right list_sum List.length].
    fold (list_sum ks). fold (sum_Z (group_widths (skipn k columns) ks)).
    rewrite IH by (rewrite length_skipn; lia).
    rewrite firstn_add_split, sum_sizes_app. lia.
Qed.

Lemma group_widths_nonneg (cnts : list nat) :
  forall columns : list (Column.t R),
    Forall constructed columns -> Forall (fun k => 1 <= k) cnts ->
    Forall (fun w => (0 <= w)%Z) (group_widths columns cnts).
Proof.
  induction cnts as [|k ks IH]; intros columns Hc Hk; cbn [group_widths].
  - constructor.
  - inversion Hk as [|k' ks' Hk1 Hks]; subst.
    rewrite <- (firstn_skipn k columns) in Hc.
    apply Forall_app in Hc as [Hfirst Hskip].
    constructor; [|now apply IH].
    apply sum_sizes_nonneg in Hfirst. lia.
Qed.

Lemma counts_positive (cols : list (Z * value)) :
  Forall (fun g => (1 <= fst g)%Z) cols -> Forall (fun k => 1 <= k) (counts cols).
Proof.
  unfold counts. induction 1 as [|g gs Hg _ IH]; cbn [map]; constructor;
    [lia | exact IH].
Qed.

Lemma sum_sizes_firstn_le (columns : list (Column.t R)) (m : nat) :
  Forall constructed columns ->
  (sum_sizes (firstn m columns) <= sum_sizes columns)%Z.
Proof.
  intros Hc. rewrite <- (firstn_skipn m columns) at 2.
  rewrite sum_sizes_app.
  rewrite <- (firstn_skipn m columns) in Hc. apply Forall_app in Hc as [_ H2].
  apply sum_sizes_nonneg in H2. lia.
Qed.

(** [__init__] keeps the columns and builds the separator from them. *)
Lemma init_inv (columns : list (Column.t R)) (rp : RowPrinter.t R) :
  RowPrinter.init columns = Ok rp ->
  RowPrinter.columns_ rp = columns
  /\ RowPrinter.sep_str rp
     = "+-" ++ Str.join "-+-"
         (map (fun c => Str.mul "-" (Column.size c)) columns) ++ "-+".
Proof.
  unfold RowPrinter.init.
  destruct (Fmt.format _ _) as [h|e]; cbn [bind]; intros H;
    [|discriminate H].
  injection H as <-. split; reflexivity.
Qed.

(** A grouped row whose groups stay inside the table, one fitting value
    per group. *)
Lemma row_line_groups (columns : list (Column.t R)) (rp : RowPrinter.t R)
  (cols : list (Z * value)) :
  Forall constructed columns ->
  RowPrinter.columns_ rp = columns ->
  Forall (fun g => (1 <= fst g)%Z) cols ->
  (span_total cols <= Z.of_nat (List.length columns))%Z ->
  Forall2 fits (map snd cols) (group_widths columns (counts cols)) ->
  RowPrinter.row_formats columns cols 0 [] []
  = Ok (map RowPrinter.slot (group_widths columns (counts cols)), map snd cols)
  /\ exists cells,
       RowPrinter.row_line rp cols = Ok (line cells)
       /\ map Str.len cells = group_widths columns (counts cols)
       /\ (cols <> [] ->
           Str.len (line cells)
           = (4 + sum_sizes (firstn (Z.to_nat (span_total cols)) columns)
              + 3 * (span_total cols - 1))%Z).
Proof.
  intros Hc Hrp Hpos Hlen Hfit.
  assert (Hpos0 : Forall (fun g => (0 <= fst g)%Z) cols)
    by (eapply Forall_impl; [|exact Hpos]; cbn; intros; lia).
  pose proof (span_total_counts cols Hpos0) as Htot.
  assert (Hfmt : RowPrinter.row_formats columns cols 0 [] []
                 = Ok (map RowPrinter.slot (group_widths columns (counts cols)),
                       map snd cols)).
  { change 0%Z with (Z.of_nat 0).
    rewrite row_formats_ok by (try assumption; lia). reflexivity. }
  split; [exact Hfmt|].
  pose proof (group_widths_nonneg (counts cols) columns Hc
                (counts_positive cols Hpos)) as Hnn.
  destruct (format_slots _ _ Hnn Hfit) as (cells & Hcells & Hw & Hl).
  exists cells. split; [|split; [exact Hw|]].
  - unfold RowPrinter.row_line. rewrite Hrp, Hfmt. cbn [bind fst snd].
    exact Hcells.
  - intros Hne. rewrite Hl.
    2:{ destruct cols; [congruence|]. discriminate. }
    rewrite group_widths_total, length_group_widths, length_counts by lia.
    rewrite <- Htot, Nat2Z.id.
    assert (1 <= List.length cols) by (destruct cols; [congruence | simpl; lia]).
    assert (Hk : (Z.of_nat (List.length cols)
                  <= Z.of_nat (list_sum (counts cols)))%Z).
    { clear - Hpos. rewrite span_total_counts
        by (eapply Forall_impl; [|exact Hpos]; cbn; intros; lia).
      unfold span_total.
      induction Hpos as [|g gs Hg _ IH]; cbn [fold_right List.length]; lia. }
    lia.
Qed.

End GroupFacts.

(* ================================================================= *)
(** * Lines of a [MapPrinter] *)

Section PanelFacts.

Context {R : Type}.

Lemma measure_bounds (rows : list (Column.t R)) :
  forall n v t : Z,
    exists n' v' t',
      MapPrinter.measure rows n v t = (n', v', t')
      /\ (n <= n')%Z /\ (v <= v')%Z /\ (t <= t')%Z
      /\ Forall (measured n' v' t') rows.
Proof.
  induction rows as [|row rows IH]; intros n v t.
  - exists n, v, t. repeat split; try lia. constructor.
  - cbn [MapPrinter.measure]. destruct (Column.is_header row) eqn:E.
    + destruct (IH n v (Z.max t (Column.size row)))
        as (n' & v' & t' & Hm & Hn & Hv & Ht & Hall).
      exists n', v', t'. rewrite Hm. repeat split; try lia.
      constructor; [|exact Hall]. unfold measured. rewrite E. lia.
    + destruct (IH (Z.max n (Str.len (Column.name row)))
                  (Z.max v (Column.size row)) t)
        as (n' & v' & t' & Hm & Hn & Hv & Ht & Hall).
      exists n', v', t'. rewrite Hm. repeat split; try lia.
      constructor; [|exact Hall]. unfold measured. rewrite E. lia.
Qed.

Lemma panel_slot_gen (a : mark) (w : Z) :
  (0 <= w)%Z ->
  MapPrinter.slot (mark_str a) w = tok (gen_spec a (Z.to_nat w) false).
Proof.
  intros H. unfold MapPrinter.slot, tok, gen_spec.
  rewrite of_Z_nonneg by exact H. now rewrite !append_assoc.
Qed.

(** A two-field template applied to a label and a cell that fit. *)
Lemma format_two_fields (a b : mark) (n v : Z) (label cell : string) :
  (0 <= n)%Z -> (0 <= v)%Z ->
  (Str.len label <= n)%Z -> (Str.len cell <= v)%Z ->
  exists l,
    Fmt.format ("| " ++ MapPrinter.slot (mark_str a) n ++ " | "
                ++ MapPrinter.slot (mark_str b) v ++ " |")
      [VStr label; VStr cell] = Ok l
    /\ Str.len l = (n + v + 7)%Z.
Proof.
  intros Hn Hv Hl Hc. rewrite !panel_slot_gen by assumption.
  set (sa := gen_spec a (Z.to_nat n) false).
  set (sb := gen_spec b (Z.to_nat v) false).
  assert (E : "| " ++ tok sa ++ " | " ++ tok sb ++ " |"
              = line (map tok [sa; sb])).
  { unfold line, Str.join. cbn [map String.concat].
    now rewrite !append_assoc. }
  rewrite E, format_line
    by (repeat constructor; apply brace_free_gen_spec).
  cbn [render_cells Fmt.format_value]. unfold sa, sb.
  rewrite !format_str_gen. cbn [bind rmap].
  eexists. split; [reflexivity|].
  rewrite length_line by discriminate.
  cbn [total_length List.length]. rewrite !length_pad.
  unfold Str.len in *. lia.
Qed.

(** The title template applied to a cell that fits. *)
Lemma format_title_field (w : Z) (cell : string) :
  (0 <= w)%Z -> (Str.len cell <= w)%Z ->
  exists l,
    Fmt.format ("| " ++ MapPrinter.slot "^" w ++ " |") [VStr cell] = Ok l
    /\ Str.len l = (w + 4)%Z.
Proof.
  intros Hw Hc. rewrite (panel_slot_gen MCenter) by assumption.
  set (sp := gen_spec MCenter (Z.to_nat w) false).
  change ("| " ++ tok sp ++ " |") with (line (map tok [sp])).
  rewrite format_line by (repeat constructor; apply brace_free_gen_spec).
  cbn [render_cells Fmt.format_value]. unfold sp.
  rewrite format_str_gen. cbn [bind rmap].
  eexists. split; [reflexivity|].
  rewrite length_line by discriminate.
  cbn [total_length List.length]. rewrite length_pad.
  unfold Str.len in *. lia.
Qed.

(** The templates [__init__] stores. *)
Lemma panel_init_inv (rows : list (Column.t R)) (mp : MapPrinter.t R)
  (n v w : Z) :
  MapPrinter.init rows = Ok mp ->
  MapPrinter.widths rows = (n, v, w) ->
  MapPrinter.format_title mp = "| " ++ MapPrinter.slot "^" w ++ " |"
  /\ MapPrinter.sep_str mp
     = "+-" ++ Str.mul "-" n ++ "-+-" ++ Str.mul "-" v ++ "-+"
  /\ MapPrinter.format_left mp
     = "| " ++ MapPrinter.slot ">" n ++ " | " ++ MapPrinter.slot "<" v ++ " |"
  /\ MapPrinter.format_right mp
     = "| " ++ MapPrinter.slot ">" n ++ " | " ++ MapPrinter.slot ">" v ++ " |"
  /\ MapPrinter.format_center mp
     = "| " ++ MapPrinter.slot "^" n ++ " | " ++ MapPrinter.slot "^" v ++ " |".
Proof.
  unfold MapPrinter.init. intros Hinit Hw. rewrite Hw in Hinit.
  destruct (Fmt.format _ _) as [h|e] in Hinit; [|discriminate Hinit].
  injection Hinit as <-. repeat split.
Qed.

(** The lines of a panel: the separator and the body rows span the label
    and the value column, the section headers span the full width. *)
Lemma panel_line_lengths (rows : list (Column.t R)) (mp : MapPrinter.t R)
  (row : Column.t R) (args : R) (s : string) :
  Forall constructed rows ->
  MapPrinter.init rows = Ok mp ->
  In row rows ->
  Column.get_str row args = Ok (VStr s) ->
  exists max_name max_value max_width l,
    MapPrinter.widths rows = (max_name, max_value, max_width)
    /\ Str.len (MapPrinter.sep_str mp) = (max_name + max_value + 7)%Z
    /\ MapPrinter.row_line mp row args = Ok (l, Column.is_header row)
    /\ Str.len l
       = if Column.is_header row then (max_width + 4)%Z
         else (max_name + max_value + 7)%Z.
Proof.
  intros Hc Hinit Hin Hget.
  destruct (measure_bounds rows 0 0 0)
    as (n & v & t & Hm & Hn & Hv & Ht & Hall).
  set (w := Z.max t (v + n + 3)).
  assert (Hw : MapPrinter.widths rows = (n, v, w))
    by (rewrite widths_unwidened, Hm; reflexivity).
  destruct (panel_init_inv rows mp n v w Hinit Hw)
    as (Htitle & Hsep & Hleft & Hright & Hcenter).
  exists n, v, w.
  assert (Hrow : constructed row)
    by (rewrite Forall_forall in Hc; now apply Hc).
  assert (Hmeas : measured n v t row)
    by (rewrite Forall_forall in Hall; now apply Hall).
  pose proof (constructed_size row Hrow) as Hsz.
  destruct (value_str_cell mp row args s Hrow Hget) as (template & Hval).
  pose proof (length_column_cell row s) as Hcell.
  set (cell := aligned _ _ _) in *.
  assert (Hclen : Str.len cell = Column.size row)
    by (unfold Str.len; rewrite Hcell; lia).
  assert (Hseplen : Str.len (MapPrinter.sep_str mp) = (n + v + 7)%Z).
  { rewrite Hsep. unfold Str.len.
    rewrite !length_append, !length_mul.
    change (String.length "+-") with 2. change (String.length "-+-") with 3.
    change (String.length "-+") with 2. lia. }
  unfold MapPrinter.row_line. unfold measured in Hmeas.
  destruct (Column.is_header row) eqn:Eh.
  - destruct (format_title_field w cell) as (l & Hl & Hlen);
      [unfold w; lia | unfold w; lia |].
    exists l. split; [exact Hw|]. split; [exact Hseplen|].
    rewrite Hval. cbn [bind snd]. rewrite Htitle, Hl. cbn [bind].
    split; [reflexivity | exact Hlen].
  - destruct Hmeas as [Hname Hsize].
    assert (Hbody : exists l,
               Fmt.format template [VStr (Column.name row); VStr cell] = Ok l
               /\ Str.len l = (n + v + 7)%Z).
    { unfold MapPrinter.value_str in Hval. rewrite Hget in Hval.
      cbn [bind] in Hval.
      destruct (Str.contains ">" (Column.format row));
        [|destruct (Str.contains "^" (Column.format row))];
        destruct (Fmt.format (Column.format row) [VStr s]);
        cbn [bind] in Hval; try discriminate Hval;
        injection Hval as <- _.
      - rewrite Hright. apply (format_two_fields MRight MRight); lia.
      - rewrite Hcenter. apply (format_two_fields MCenter MCenter); lia.
      - rewrite Hleft. apply (format_two_fields MRight MLeft); lia. }
    destruct Hbody as (l & Hl & Hlen).
    exists l. split; [exact Hw|]. split; [exact Hseplen|].
    rewrite Hval. cbn [bind fst snd]. rewrite Hl. cbn [bind].
    split; [reflexivity | exact Hlen].
Qed.

End PanelFacts.

(* ================================================================= *)
(** * The claims *)

(** C6. A column built with declared width [w] and name [n] stores the
    effective width [max(w, len(n))], so the effective width is at least
    the length of the name; the width is a field set by [__init__], and a
    render call hands back the printer, with its rows, as it was. *)
Theorem column_effective_width {R : Type} (k : klass)
  (g : R -> result value) (w : Z) (f : option string) (n : string) :
  let c := Column.init k g w f n in
  Column.size c = Z.max w (Str.len n)
  /\ (Str.len (Column.name c) <= Column.size c)%Z
  /\ (forall (mp mp' : MapPrinter.t R) (args : R) (out out' : sink),
        MapPrinter.print_data mp args out = (out', Ok mp') ->
        MapPrinter.rows mp' = MapPrinter.rows mp).
Proof.
  cbn zeta. unfold Column.init. cbn [Column.size Column.name].
  split; [reflexivity|]. split; [lia|].
  intros mp mp' args out out'. unfold MapPrinter.print_data.
  destruct (MapPrinter.print_rows mp (MapPrinter.rows mp) args out) as [o [u|e]];
    cbn; intros H; inversion H; reflexivity.
Qed.

(** C9. The template a column derives in [__init__] from its value
    format: [{:>w.w}] when the format contains [>], else [{:^w.w}] when it
    contains [^], else [{:<w.w}], and [{:w.w}] when there is no format;
    [w] is the effective width.  Applied to a string, the template cuts
    it to its leftmost [w] characters and sets it right, centred or left
    in [w] columns accordingly (left when there is no format). *)
Theorem column_alignment_template {R : Type} (k : klass)
  (g : R -> result value) (w : Z) (f : option string) (n : string) :
  let c := Column.init k g w f n in
  let sz := Str.of_Z (Column.size c) in
  Column.format c
  = match f with
    | None => "{:" ++ sz ++ "." ++ sz ++ "}"
    | Some _ =>
        match alignment_of f with
        | Right => "{:>" ++ sz ++ "." ++ sz ++ "}"
        | Center => "{:^" ++ sz ++ "." ++ sz ++ "}"
        | Left => "{:<" ++ sz ++ "." ++ sz ++ "}"
        end
    end
  /\ forall s : string,
       Fmt.format (Column.format c) [VStr s]
       = Ok (aligned (alignment_of f) (Z.to_nat (Column.size c))
               (Str.take (Z.to_nat (Column.size c)) s)).
Proof.
  cbn zeta. split.
  - unfold Column.init, alignment_of, Column.template.
    cbn [Column.format Column.size].
    destruct f as [f|]; [|reflexivity].
    destruct (Str.contains ">" f); [reflexivity|].
    destruct (Str.contains "^" f); reflexivity.
  - intros s.
    rewrite (constructed_format _ (constructed_init k g w f n)).
    rewrite format_tok by apply brace_free_gen_spec.
    apply (column_cell (Column.init k g w f n)).
Qed.

(** C7. For a non-empty list of constructed columns, the separator line,
    the header line and every data row [print_data] emits when each
    column's display value is a string have the same length:
    4 + the sum of the effective widths + 3 * (number of columns - 1). *)
Theorem row_printer_line_lengths {R : Type} (columns : list (Column.t R)) :
  Forall constructed columns -> columns <> [] ->
  exists rp,
    RowPrinter.init columns = Ok rp
    /\ Str.len (RowPrinter.sep_str rp) = row_length columns
    /\ Str.len (RowPrinter.header rp) = row_length columns
    /\ forall (args : R) (out : sink),
         displays_strings columns args ->
         exists l,
           RowPrinter.print_data rp args out = (secho l false out, Ok tt)
           /\ Str.len l = row_length columns.
Proof.
  intros Hc Hne.
  destruct (init_ok columns Hc Hne) as (h & Hinit & Hh).
  eexists. split; [exact Hinit|].
  cbn [RowPrinter.sep_str RowPrinter.header].
  split; [now apply length_sep_str|]. split; [exact Hh|].
  intros args out Hstr.
  destruct (mapM_strings columns args Hstr) as (ss & Hss & Hl).
  destruct (format_row_strings columns ss Hc Hne Hl) as (l & Hfmt & Hlen).
  exists l. split; [|exact Hlen].
  unfold RowPrinter.print_data, RowPrinter.data_line.
  cbn [RowPrinter.columns_ RowPrinter.format_str].
  rewrite Hss. cbn [bind]. now rewrite Hfmt.
Qed.

Lemma row_printer_line_lengths_witness :
  exists rp l,
    RowPrinter.init [col_id_field; col_status] = Ok rp
    /\ Str.len (RowPrinter.sep_str rp) = 19%Z
    /\ Str.len (RowPrinter.header rp) = 19%Z
    /\ RowPrinter.print_data rp (VInt 7, VStr "ok") [] = ([(l, false)], Ok tt)
    /\ Str.len l = 19%Z.
Proof.
  destruct (row_printer_line_lengths [col_id_field; col_status])
    as (rp & Hinit & Hsep & Hhdr & Hdata).
  - repeat constructor.
  - discriminate.
  - destruct (Hdata (VInt 7, VStr "ok") []) as (l & Hl & Hlen).
    + repeat constructor; eexists; vm_compute; reflexivity.
    + exists rp, l. repeat split; assumption.
Defined.

(** C5 (as stated, refuted).  For the columns [ID] (width 4, format [>])
    and [Status] (width 8) the header is not ["| ID   | Status   |"] and
    the data row for [(7, "ok")] is not ["|    7 | ok       |"]. *)
Lemma example_table_as_stated_fails :
  ~ (exists rp,
        RowPrinter.init id_status = Ok rp
        /\ RowPrinter.print_header rp [] = [("| ID   | Status   |", true)]
        /\ RowPrinter.print_separater rp [] = [("+------+----------+", false)]
        /\ RowPrinter.print_data rp (VInt 7, VStr "ok") []
           = ([("|    7 | ok       |", false)], Ok tt)).
Proof.
  intros (rp & Hinit & Hhdr & _).
  vm_compute in Hinit. injection Hinit as <-.
  vm_compute in Hhdr. discriminate Hhdr.
Qed.

(** C5 (amended).  For the columns [ID] (width 4, format [>]) and
    [Status] (width 8): the header is ["|   ID | Status   |"] (the name is
    set under the column's own right-aligned template), the separator is
    ["+------+----------+"], and the data row for [(7, "ok")] is
    ["|    > | ok       |"], because the format [>] has no replacement
    field and formats every value as [>].  With the format [{:>}] the
    data row is ["|    7 | ok       |"]. *)
Theorem example_table_lines :
  exists rp,
    RowPrinter.init id_status = Ok rp
    /\ RowPrinter.print_header rp [] = [("|   ID | Status   |", true)]
    /\ RowPrinter.print_separater rp [] = [("+------+----------+", false)]
    /\ RowPrinter.print_data rp (VInt 7, VStr "ok") []
       = ([("|    > | ok       |", false)], Ok tt)
    /\ exists rp',
         RowPrinter.init [col_id_field; col_status] = Ok rp'
         /\ RowPrinter.print_data rp' (VInt 7, VStr "ok") []
            = ([("|    7 | ok       |", false)], Ok tt).
Proof.
  eexists. split; [vm_compute; reflexivity|].
  repeat split; try (vm_compute; reflexivity).
  eexists. split; vm_compute; reflexivity.
Qed.

(** C1 (the code at the failing input).  A right-aligned row of width 3
    whose formatted value is ["12345"]: [print_data] puts ["123"], the
    leftmost three characters, in the cell, not the rightmost three
    ["345"]: the template [{:>3.3}] has already cut the string from the
    back when the slice [[-3:]] is taken. *)
Theorem right_aligned_overflow_keeps_front :
  exists mp,
    MapPrinter.init [row_right] = Ok mp
    /\ Column.get_str row_right (VStr "", VStr "12345") = Ok (VStr "12345")
    /\ MapPrinter.value_str mp row_right (VStr "", VStr "12345")
       = Ok (MapPrinter.format_right mp, "123")
    /\ fst (MapPrinter.print_data mp (VStr "", VStr "12345") [])
       = [("| n | 123 |", false)]
    /\ Str.slice_from "12345" (-3) = "345".
Proof.
  eexists. split; [vm_compute; reflexivity|].
  repeat split; vm_compute; reflexivity.
Qed.

(** C2 (the code at the failing input).  The panel of the example, one
    header of width 20 and the row [Count] of width 5: the full width is
    max(20, 5 + 5 + 3) = 20, yet the value column keeps width 5; the
    separator and the body row are 17 characters long and the header row
    is 24 characters long. *)
Theorem summary_panel_lines_differ :
  MapPrinter.widths summary_panel = (5, 5, 20)%Z
  /\ exists mp,
       MapPrinter.init summary_panel = Ok mp
       /\ MapPrinter.sep_str mp = "+-------+-------+"
       /\ fst (MapPrinter.print_data mp (VStr "Totals", VStr "12") [])
          = [("| Totals               |", true);
             ("| Count | 12    |", false)]
       /\ Str.len (MapPrinter.sep_str mp) = 17%Z
       /\ Str.len "| Count | 12    |" = 17%Z
       /\ Str.len "| Totals               |" = 24%Z.
Proof.
  split; [vm_compute; reflexivity|].
  eexists. split; [vm_compute; reflexivity|].
  repeat split; vm_compute; reflexivity.
Qed.






(** C4 (as stated, refuted).  Two columns and the single group
    [(1, "a")]: the span counts sum to 1, not 2, and [print_row] raises
    nothing: it emits the row ["| a    |"], shorter than the separator. *)
Lemma row_span_mismatch_accepted :
  span_total [(1%Z, VStr "a")] <> Z.of_nat (List.length id_status)
  /\ exists rp,
       RowPrinter.init id_status = Ok rp
       /\ RowPrinter.print_row rp [(1%Z, VStr "a")] []
          = ([("| a    |", false)], Ok tt)
       /\ RowPrinter.sep_str rp = "+------+----------+".
Proof.
  split; [vm_compute; discriminate|].
  eexists. repeat split; vm_compute; reflexivity.
Qed.

(** C4 (amended).  [print_row] does not check the span counts against
    the column count.  With non-negative span counts that sum to more
    than the column count the call fails with [IndexError] and nothing
    is emitted.  With span counts of at least 1 that sum to less than the
    column count, and fitting values, a row over the consumed columns
    alone is emitted, shorter than the separator. *)
Theorem row_span_mismatch {R : Type} (columns : list (Column.t R))
  (rp : RowPrinter.t R) (cols : list (Z * value)) (out : sink) :
  Forall constructed columns ->
  RowPrinter.init columns = Ok rp ->
  (Forall (fun g => (0 <= fst g)%Z) cols ->
   (Z.of_nat (List.length columns) < span_total cols)%Z ->
   RowPrinter.print_row rp cols out = (out, Raise IndexError))
  /\ (Forall (fun g => (1 <= fst g)%Z) cols -> cols <> [] ->
      (span_total cols < Z.of_nat (List.length columns))%Z ->
      Forall2 fits (map snd cols) (group_widths columns (counts cols)) ->
      exists l,
        RowPrinter.print_row rp cols out = (secho l false out, Ok tt)
        /\ Str.len l
           = (4 + sum_sizes (firstn (Z.to_nat (span_total cols)) columns)
              + 3 * (span_total cols - 1))%Z
        /\ (Str.len l < Str.len (RowPrinter.sep_str rp))%Z).
Proof.
  intros Hc Hinit. destruct (init_inv columns rp Hinit) as [Hcols Hsep].
  split.
  - intros Hpos Hlong.
    unfold RowPrinter.print_row, RowPrinter.row_line. rewrite Hcols.
    change 0%Z with (Z.of_nat 0).
    rewrite row_formats_overflow by (try assumption; lia). reflexivity.
  - intros Hpos Hne Hshort Hfit.
    destruct (row_line_groups columns rp cols Hc Hcols Hpos ltac:(lia) Hfit)
      as (_ & cells & Hline & _ & Hl).
    exists (line cells). split; [|split; [now apply Hl|]].
    + unfold RowPrinter.print_row. now rewrite Hline.
    + rewrite Hsep, length_sep_str, (Hl Hne);
        [|exact Hc | destruct columns; [cbn in Hshort|]; try discriminate].
      * pose proof (sum_sizes_firstn_le columns
                      (Z.to_nat (span_total cols)) Hc).
        unfold row_length. lia.
      * assert (0 <= span_total cols)%Z; [|lia].
        rewrite <- span_total_counts; [lia|].
        eapply Forall_impl; [|exact Hpos]. cbn. intros. lia.
Qed.

Lemma row_span_mismatch_witness :
  exists rp,
    RowPrinter.init id_status = Ok rp
    /\ RowPrinter.print_row rp [(1%Z, VStr "a"); (2%Z, VStr "b")] []
       = ([], Raise IndexError)
    /\ exists l,
         RowPrinter.print_row rp [(1%Z, VStr "a")] [] = ([(l, false)], Ok tt)
         /\ Str.len l = 8%Z
         /\ (Str.len l < Str.len (RowPrinter.sep_str rp))%Z.
Proof.
  destruct (init_ok id_status) as (h & Hinit & _).
  - repeat constructor.
  - discriminate.
  - eexists. split; [exact Hinit|]. split.
    + apply (row_span_mismatch id_status _ [(1%Z, VStr "a"); (2%Z, VStr "b")] []).
      * repeat constructor.
      * exact Hinit.
      * repeat constructor; simpl; lia.
      * vm_compute. reflexivity.
    + apply (row_span_mismatch id_status _ [(1%Z, VStr "a")] []).
      * repeat constructor.
      * exact Hinit.
      * repeat constructor. simpl. lia.
      * discriminate.
      * vm_compute. reflexivity.
      * repeat constructor. unfold fits. vm_compute. discriminate.
Defined.

(** C10. The slots of [print_spanned] and [print_row] carry a width and
    no precision: a value whose string is at least as long as its slot is
    emitted in full.  For the columns [ID] and [Status] and the value
    ["overlong"] in the slot of width 4, both calls emit the value whole
    in a row longer than the separator, while [print_data] cuts an
    overlong status to the 8 characters of its column. *)
Theorem slots_never_truncate :
  (forall (v : value) (w : Z),
      (0 <= w)%Z -> (w <= Str.len (py_str v))%Z ->
      Fmt.format (RowPrinter.slot w) [v] = Ok (py_str v))
  /\ exists rp,
       RowPrinter.init id_status = Ok rp
       /\ RowPrinter.sep_str rp = "+------+----------+"
       /\ RowPrinter.print_spanned rp 0 1 [VStr "overlong"; VStr "ok"] []
          = ([("| overlong | ok       |", false)], Ok tt)
       /\ RowPrinter.print_row rp [(1%Z, VStr "overlong"); (1%Z, VStr "ok")] []
          = ([("| overlong | ok       |", false)], Ok tt)
       /\ (Str.len (RowPrinter.sep_str rp)
           < Str.len "| overlong | ok       |")%Z
       /\ RowPrinter.print_data rp (VInt 7, VStr "overlong status") []
          = ([("|    > | overlong |", false)], Ok tt).
Proof.
  split.
  - intros v w Hw Hlong.
    rewrite slot_gen by exact Hw.
    rewrite format_tok by apply brace_free_gen_spec.
    destruct (slot_cell v w) as (out & Hout & _ & Hfull).
    rewrite Hout. f_equal. apply Hfull. unfold Str.len in Hlong. lia.
  - eexists. split; [vm_compute; reflexivity|].
    repeat split; vm_compute; reflexivity.
Qed.

Lemma slots_never_truncate_witness :
  Fmt.format (RowPrinter.slot 4) [VStr "overlong"] = Ok "overlong".
Proof.
  apply (proj1 slots_never_truncate (VStr "overlong") 4%Z).
  - lia.
  - vm_compute. discriminate.
Defined.

(* ================================================================= *)
(** * Further properties of the printers *)

(** ** More on [str.format] *)

(** A format string without braces formats to itself. *)
Lemma format_literal (fmt : string) (args : list value) :
  brace_free fmt = true -> Fmt.format fmt args = Ok fmt.
Proof.
  intros H. unfold Fmt.format.
  rewrite <- (append_nil_r fmt) at 1.
  rewrite vformat_text by exact H. cbn. now rewrite append_nil_r.
Qed.

Lemma get_field_surplus (name : string) (an : Fmt.autonumber)
  (args extra : list value) (va : value * Fmt.autonumber) :
  Fmt.get_field name an args = Ok va ->
  Fmt.get_field name an (args ++ extra)%list = Ok va.
Proof.
  unfold Fmt.get_field.
  assert (Hnth : forall i v, nth_error args i = Some v ->
                             nth_error (args ++ extra)%list i = Some v).
  { intros i v H. rewrite nth_error_app1; [exact H|].
    apply nth_error_Some. congruence. }
  destruct (Str.contains "." name); [discriminate|].
  destruct name as [|c name].
  - destruct (Fmt.an_st an); try discriminate;
      (destruct (nth_error args (Fmt.an_field_number an)) as [v|] eqn:E;
       [rewrite (Hnth _ _ E); trivial | discriminate]).
  - destruct (Fmt.all_digits (String c name)); [|discriminate].
    destruct (Fmt.an_st an); try discriminate;
      (destruct (Spec.get_integer (String c name) 0 0) as [[i k] r];
       destruct (nth_error args i) as [v|] eqn:E;
       [rewrite (Hnth _ _ E); trivial | discriminate]).
Qed.

(** Surplus positional arguments do not change a successful result. *)
Lemma vformat_surplus (fmt : string) :
  forall (m : Fmt.mode) (an : Fmt.autonumber) (args extra : list value)
         (l : string),
    Fmt.vformat m an args fmt = Ok l ->
    Fmt.vformat m an (args ++ extra)%list fmt = Ok l.
Proof.
  induction fmt as [|c fmt IH]; intros m an args extra l H.
  - exact H.
  - cbn [Fmt.vformat] in *. destruct (Fmt.step m c) as [d m'|m'|name spec|e].
    + destruct (Fmt.vformat m' an args fmt) as [l'|e] eqn:E;
        [|discriminate H].
      now rewrite (IH _ _ _ extra _ E).
    + now apply IH.
    + destruct (Fmt.get_field name an args) as [va|e] eqn:Eg;
        [|discriminate H].
      rewrite (get_field_surplus _ _ _ extra _ Eg). cbn [bind] in *.
      destruct (Fmt.format_value (fst va) spec) as [o|e]; [|discriminate H].
      cbn [bind] in *.
      destruct (Fmt.vformat Fmt.MText (snd va) args fmt) as [l'|e] eqn:E;
        [|discriminate H].
      now rewrite (IH _ _ _ extra _ E).
    + discriminate H.
Qed.





(* ----------------------------------------------------------------- *)
(** ** [Column.get_str] *)

(** X1. A value format without braces has no replacement field: the
    display value of the column is the format's own text, whatever the
    accessor returns; the accessor is still called, and its error is the
    error of [get_str]. *)
Theorem get_str_literal_format {R : Type} (c : Column.t R) (args : R)
  (vf : string) :
  Column.value_format c = Some vf ->
  brace_free vf = true ->
  (forall v, Column.get_value c args = Ok v ->
             Column.get_str c args = Ok (VStr vf))
  /\ (forall e, Column.get_value c args = Raise e ->
                Column.get_str c args = Raise e).
Proof.
  intros Hvf Hbf. unfold Column.get_value, Column.get_str. rewrite Hvf.
  split.
  - intros v ->. cbn [bind]. now rewrite format_literal.
  - intros e ->. reflexivity.
Qed.

Lemma get_str_literal_format_witness :
  Column.get_str col_id (VInt 7, VStr "ok") = Ok (VStr ">").
Proof.
  apply (proj1 (get_str_literal_format col_id (VInt 7, VStr "ok") ">"
                  eq_refl eq_refl) (VInt 7)).
  reflexivity.
Defined.

(* ----------------------------------------------------------------- *)
(** ** The cells of a [RowPrinter] *)

Section RowCells.

Context {R : Type}.

Lemma render_cells_exact (columns : list (Column.t R)) :
  forall ss : list string,
    List.length ss = List.length columns ->
    render_cells (map column_spec columns) (map VStr ss)
    = Ok (cells_of columns ss).
Proof.
  induction columns as [|c cs IH]; intros [|s ss] Hlen;
    try discriminate Hlen; [reflexivity|].
  cbn [map render_cells cells_of]. rewrite column_cell, IH by (simpl in Hlen; lia).
  reflexivity.
Qed.


Lemma init_fields (columns : list (Column.t R)) (rp : RowPrinter.t R) :
  RowPrinter.init columns = Ok rp ->
  RowPrinter.columns_ rp = columns
  /\ RowPrinter.format_str rp = line (map Column.format columns)
  /\ Fmt.format (line (map Column.format columns))
       (map VStr (map Column.name columns)) = Ok (RowPrinter.header rp).
Proof.
  unfold RowPrinter.init. fold (line (map Column.format columns)).
  destruct (Fmt.format _ _) as [h|e]; cbn [bind]; intros H;
    [|discriminate H].
  injection H as <-. repeat split.
Qed.

Lemma mapM_display (columns : list (Column.t R)) (args : R)
  (ss : list string) :
  Forall2 (fun c s => Column.get_str c args = Ok (VStr s)) columns ss ->
  mapM (fun c => Column.get_str c args) columns = Ok (map VStr ss).
Proof.
  induction 1 as [|c s cs ss Hs _ IH]; [reflexivity|].
  cbn [mapM map]. now rewrite Hs, IH.
Qed.

Lemma mapM_length {A B : Type} (f : A -> result B) (xs : list A)
  (ys : list B) :
  mapM f xs = Ok ys -> List.length ys = List.length xs.
Proof.
  revert ys. induction xs as [|x xs IH]; intros ys H.
  - injection H as <-. reflexivity.
  - cbn [mapM] in H. destruct (f x) as [y|e]; [|discriminate H].
    cbn [bind] in H. destruct (mapM f xs) as [ys'|e]; [|discriminate H].
    injection H as <-. cbn [List.length]. now rewrite (IH ys').
Qed.

Lemma length_cell_of (c : Column.t R) (s : string) :
  constructed c -> Str.len (cell_of c s) = Column.size c.
Proof.
  intros Hc. apply constructed_size in Hc.
  unfold Str.len, cell_of. rewrite length_column_cell. lia.
Qed.


(** One [int] among the display values makes the cells fail. *)
Lemma render_cells_int (columns : list (Column.t R)) :
  forall vs : list value,
    List.length vs = List.length columns ->
    Exists is_int vs ->
    render_cells (map column_spec columns) vs = Raise ValueError.
Proof.
  induction columns as [|c cs IH]; intros [|v vs] Hlen Hex;
    try discriminate Hlen; [inversion Hex|].
  cbn [map render_cells]. destruct v as [s|z].
  - rewrite column_cell. cbn [bind].
    inversion Hex as [? ? [z Hz]|? ? Hrest]; subst; [discriminate Hz|].
    rewrite IH by (try assumption; simpl in Hlen; lia). reflexivity.
  - now rewrite column_cell_int.
Qed.

End RowCells.

(** X2. [print_data] of a [RowPrinter] on constructed columns whose
    display values are the strings [ss] emits the line of their cells:
    each string cut to its leftmost [size] characters and set in [size]
    columns under its column's alignment; every cell is exactly as wide
    as its column. *)
Theorem row_data_cells {R : Type} (columns : list (Column.t R))
  (rp : RowPrinter.t R) (args : R) (ss : list string) (out : sink) :
  Forall constructed columns ->
  RowPrinter.init columns = Ok rp ->
  Forall2 (fun c s => Column.get_str c args = Ok (VStr s)) columns ss ->
  RowPrinter.print_data rp args out
  = (secho (line (cells_of columns ss)) false out, Ok tt)
  /\ Forall2 (fun c s => Str.len (cell_of c s) = Column.size c) columns ss.
Proof.
  intros Hc Hinit Hdisp.
  destruct (init_fields columns rp Hinit) as (Hcols & Hfmt & _).
  split.
  - unfold RowPrinter.print_data, RowPrinter.data_line.
    rewrite Hcols, Hfmt, (mapM_display columns args ss Hdisp). cbn [bind].
    rewrite formats_constructed by exact Hc.
    rewrite format_line by apply column_specs_brace_free.
    rewrite render_cells_exact by (symmetry; eapply Forall2_length; eassumption).
    reflexivity.
  - clear Hinit Hcols Hfmt. induction Hdisp as [|c s cs ss' _ _ IH]; constructor.
    + inversion Hc; subst. now apply length_cell_of.
    + inversion Hc; subst. now apply IH.
Qed.

Lemma row_data_cells_witness :
  exists rp,
    RowPrinter.init [col_id_field; col_status] = Ok rp
    /\ RowPrinter.print_data rp (VInt 7, VStr "overlong status") []
       = ([("|    7 | overlong |", false)], Ok tt).
Proof.
  destruct (init_ok [col_id_field; col_status]) as (h & Hinit & _).
  - repeat constructor.
  - discriminate.
  - eexists. split; [exact Hinit|].
    apply (row_data_cells [col_id_field; col_status] _
             (VInt 7, VStr "overlong status") ["7"; "overlong status"] []).
    + repeat constructor.
    + exact Hinit.
    + repeat constructor.
Defined.



(** X4. When every accessor and value format succeeds but some display
    value is an [int] (a column without value format whose accessor
    returns a number), [print_data] fails with [ValueError], the column
    templates carrying a precision, and emits nothing. *)
Theorem row_data_int_rejected {R : Type} (columns : list (Column.t R))
  (rp : RowPrinter.t R) (args : R) (vs : list value) (out : sink) :
  Forall constructed columns ->
  RowPrinter.init columns = Ok rp ->
  mapM (fun c => Column.get_str c args) columns = Ok vs ->
  Exists is_int vs ->
  RowPrinter.print_data rp args out = (out, Raise ValueError).
Proof.
  intros Hc Hinit Hvs Hint.
  destruct (init_fields columns rp Hinit) as (Hcols & Hfmt & _).
  unfold RowPrinter.print_data, RowPrinter.data_line.
  rewrite Hcols, Hfmt, Hvs. cbn [bind].
  rewrite formats_constructed by exact Hc.
  rewrite format_line by apply column_specs_brace_free.
  rewrite render_cells_int
    by (try assumption; eapply mapM_length; eassumption).
  reflexivity.
Qed.

Lemma row_data_int_rejected_witness :
  exists rp,
    RowPrinter.init [col_status; col_id_field] = Ok rp
    /\ RowPrinter.print_data rp (VStr "7", VInt 5) [] = ([], Raise ValueError).
Proof.
  destruct (init_ok [col_status; col_id_field]) as (h & Hinit & _).
  - repeat constructor.
  - discriminate.
  - eexists. split; [exact Hinit|].
    apply (row_data_int_rejected [col_status; col_id_field] _
             (VStr "7", VInt 5) [VInt 5; VStr "7"] []).
    + repeat constructor.
    + exact Hinit.
    + reflexivity.
    + constructor. exists 5%Z. reflexivity.
Defined.

(* ----------------------------------------------------------------- *)
(** ** [print_spanned]: the number of values and the span *)

Section SpannedEdges.

Context {R : Type}.



(** With a span count of at most 1 the loop never merges. *)
Lemma spanned_unmerged (columns : list (Column.t R)) :
  forall (i idx size : Z) (formats : list string),
    (size <= 1)%Z ->
    RowPrinter.spanned_formats columns i idx size 0 formats
    = (formats ++ own_slots columns)%list.
Proof.
  induction columns as [|c cs IH]; intros i idx size formats H.
  - cbn. now rewrite List.app_nil_r.
  - cbn [RowPrinter.spanned_formats own_slots map].
    destruct (Z.ltb_spec i idx).
    + rewrite IH by exact H. now rewrite <- List.app_assoc.
    + destruct (Z.ltb_spec i (idx + size - 1)); [lia|].
      rewrite IH by exact H. now rewrite Z.add_0_r, <- List.app_assoc.
Qed.

(** A span that reaches past the last column swallows every column from
    its start on. *)
Lemma spanned_overrun (columns : list (Column.t R)) :
  forall (i idx size spanned : Z) (formats : list string),
    (Z.of_nat (List.length columns) + i < idx + size)%Z ->
    RowPrinter.spanned_formats columns i idx size spanned formats
    = (formats ++ own_slots (firstn (Z.to_nat (idx - i)) columns))%list.
Proof.
  induction columns as [|c cs IH]; intros i idx size spanned formats H.
  - cbn. now rewrite firstn_nil, List.app_nil_r.
  - cbn [RowPrinter.spanned_formats]. cbn [List.length] in H.
    destruct (Z.ltb_spec i idx).
    + rewrite IH by lia.
      replace (Z.to_nat (idx - i)) with (S (Z.to_nat (idx - (i + 1)))) by lia.
      cbn [firstn own_slots map]. now rewrite <- List.app_assoc.
    + destruct (Z.ltb_spec i (idx + size - 1)); [|lia].
      rewrite IH by lia.
      replace (Z.to_nat (idx - (i + 1))) with 0 by lia.
      replace (Z.to_nat (idx - i)) with 0 by lia.
      reflexivity.
Qed.

Lemma own_slots_sizes (columns : list (Column.t R)) :
  own_slots columns = map RowPrinter.slot (map Column.size columns).
Proof. unfold own_slots. now rewrite map_map. Qed.

End SpannedEdges.

(** X5. [print_spanned] ignores surplus values: a call that succeeds
    emits the same row when further values are appended to [data]. *)
Theorem spanned_surplus_ignored {R : Type} (rp : RowPrinter.t R)
  (idx size : Z) (data extra : list value) (out out' : sink) :
  RowPrinter.print_spanned rp idx size data out = (out', Ok tt) ->
  RowPrinter.print_spanned rp idx size (data ++ extra)%list out = (out', Ok tt).
Proof.
  unfold RowPrinter.print_spanned, RowPrinter.spanned_line, Fmt.format.
  destruct (Fmt.vformat _ _ data _) as [l|e] eqn:E; [|discriminate].
  now rewrite (vformat_surplus _ _ _ _ extra _ E).
Qed.

Lemma spanned_surplus_ignored_witness :
  exists rp,
    RowPrinter.init id_status = Ok rp
    /\ RowPrinter.print_spanned rp 0 2 [VStr "caption"; VStr "lost"] []
       = ([("| caption         |", false)], Ok tt).
Proof.
  destruct (init_ok id_status) as (h & Hinit & _).
  - repeat constructor.
  - discriminate.
  - eexists. split; [exact Hinit|].
    apply (spanned_surplus_ignored _ 0 2 [VStr "caption"] [VStr "lost"] []).
    reflexivity.
Defined.



(** X7. With a span count of 1 or less (zero and negative counts
    included, at any start index) [print_spanned] merges nothing: there
    is one slot per column, of the column's own width, and with one
    fitting value per column the row is as long as the separator. *)
Theorem spanned_single_keeps_columns {R : Type} (columns : list (Column.t R))
  (rp : RowPrinter.t R) (idx size : Z) (data : list value) (out : sink) :
  Forall constructed columns -> columns <> [] ->
  RowPrinter.init columns = Ok rp ->
  (size <= 1)%Z ->
  Forall2 fits data (map Column.size columns) ->
  RowPrinter.spanned_formats columns 0 idx size 0 [] = own_slots columns
  /\ exists cells,
       RowPrinter.print_spanned rp idx size data out
       = (secho (line cells) false out, Ok tt)
       /\ map Str.len cells = map Column.size columns
       /\ Str.len (line cells) = Str.len (RowPrinter.sep_str rp).
Proof.
  intros Hc Hne Hinit Hsize Hfit.
  destruct (init_inv columns rp Hinit) as [Hcols Hsep].
  assert (Hfmt : RowPrinter.spanned_formats columns 0 idx size 0 []
                 = own_slots columns)
    by (now rewrite spanned_unmerged).
  split; [exact Hfmt|].
  destruct (format_slots (map Column.size columns) data
              (sizes_nonneg columns Hc) Hfit) as (cells & Hcells & Hw & Hl).
  exists cells. split; [|split; [exact Hw|]].
  - unfold RowPrinter.print_spanned, RowPrinter.spanned_line.
    rewrite Hcols, Hfmt, own_slots_sizes.
    fold (line (map RowPrinter.slot (map Column.size columns))).
    now rewrite Hcells.
  - rewrite Hsep, length_sep_str by assumption.
    rewrite Hl by (destruct columns; [congruence | discriminate]).
    rewrite sum_Z_sizes, length_map. reflexivity.
Qed.

Lemma spanned_single_keeps_columns_witness :
  exists rp,
    RowPrinter.init id_status = Ok rp
    /\ RowPrinter.spanned_formats id_status 0 5 (-2) 0 [] = ["{:4}"; "{:8}"]
    /\ exists cells,
         RowPrinter.print_spanned rp 5 (-2) [VInt 7; VStr "ok"] []
         = ([(line cells, false)], Ok tt)
         /\ map Str.len cells = [4%Z; 8%Z]
         /\ Str.len (line cells) = Str.len (RowPrinter.sep_str rp).
Proof.
  destruct (init_ok id_status) as (h & Hinit & _).
  - repeat constructor.
  - discriminate.
  - eexists. split; [exact Hinit|].
    apply (spanned_single_keeps_columns id_status _ 5 (-2)
             [VInt 7; VStr "ok"] []).
    + repeat constructor.
    + discriminate.
    + exact Hinit.
    + lia.
    + repeat constructor; unfold fits; vm_compute; discriminate.
Defined.

(** X8. When the span reaches past the last column
    ([idx + size > columns]) [print_spanned] builds slots for the columns
    before [idx] only: every column from [idx] on is swallowed and gets
    no cell. *)
Theorem spanned_past_end {R : Type} (columns : list (Column.t R))
  (idx size : Z) :
  (Z.of_nat (List.length columns) < idx + size)%Z ->
  RowPrinter.spanned_formats columns 0 idx size 0 []
  = own_slots (firstn (Z.to_nat idx) columns).
Proof.
  intros H. rewrite spanned_overrun by lia.
  now rewrite Z.sub_0_r.
Qed.

Lemma spanned_past_end_witness :
  RowPrinter.spanned_formats id_status 0 1 2 0 [] = ["{:4}"]
  /\ exists rp,
       RowPrinter.init id_status = Ok rp
       /\ RowPrinter.print_spanned rp 1 2 [VInt 7; VStr "ok"] []
          = ([("|    7 |", false)], Ok tt).
Proof.
  split.
  - apply (spanned_past_end id_status 1 2). vm_compute. reflexivity.
  - eexists. split; vm_compute; reflexivity.
Defined.

(* ----------------------------------------------------------------- *)
(** ** [print_row]: empty groups and the column count *)

Section GroupEdges.

Context {R : Type}.

Lemma empty_group_string (s : string) :
  Fmt.format_value (VStr s) "-3" = Raise ValueError.
Proof. reflexivity. Qed.




End GroupEdges.



(** X10. The [columns] property tells whether a grouped row is complete:
    for groups of at least one column that stay inside the table, with
    fitting values, the row [print_row] emits is as long as the separator
    exactly when the span counts sum to [columns]. *)
Theorem row_complete_iff_columns {R : Type} (columns : list (Column.t R))
  (rp : RowPrinter.t R) (cols : list (Z * value)) (out : sink) :
  Forall constructed columns ->
  RowPrinter.init columns = Ok rp ->
  Forall (fun g => (1 <= fst g)%Z) cols -> cols <> [] ->
  (span_total cols <= RowPrinter.columns rp)%Z ->
  Forall2 fits (map snd cols) (group_widths columns (counts cols)) ->
  exists l,
    RowPrinter.print_row rp cols out = (secho l false out, Ok tt)
    /\ (Str.len l = Str.len (RowPrinter.sep_str rp)
        <-> span_total cols = RowPrinter.columns rp).
Proof.
  intros Hc Hinit Hpos Hne Hlen Hfit.
  destruct (init_inv columns rp Hinit) as [Hcols Hsep].
  unfold RowPrinter.columns in *. rewrite Hcols in *.
  destruct (row_line_groups columns rp cols Hc Hcols Hpos Hlen Hfit)
    as (_ & cells & Hline & _ & Hl).
  exists (line cells). split.
  - unfold RowPrinter.print_row. now rewrite Hline.
  - assert (Hcolumns : columns <> []).
    { intros ->. destruct cols as [|g gs]; [congruence|].
      inversion Hpos as [|g' gs' Hg Hgs]; subst.
      assert (0 <= span_total gs)%Z.
      { rewrite <- span_total_counts; [lia|].
        eapply Forall_impl; [|exact Hgs]. cbn. intros. lia. }
      unfold span_total in *. cbn [fold_right List.length] in Hlen. lia. }
    rewrite Hsep, length_sep_str, (Hl Hne) by assumption.
    unfold row_length.
    pose proof (sum_sizes_firstn_le columns (Z.to_nat (span_total cols)) Hc).
    split.
    + intros E. lia.
    + intros E. rewrite E, Nat2Z.id, firstn_all. reflexivity.
Qed.

Lemma row_complete_iff_columns_witness :
  exists rp l,
    RowPrinter.init id_status = Ok rp
    /\ RowPrinter.print_row rp [(1%Z, VStr "a")] [] = ([(l, false)], Ok tt)
    /\ (Str.len l = Str.len (RowPrinter.sep_str rp)
        <-> span_total [(1%Z, VStr "a")] = RowPrinter.columns rp).
Proof.
  destruct (init_ok id_status) as (h & Hinit & _).
  - repeat constructor.
  - discriminate.
  - pose proof (fun H1 H3 H4 H5 H6 =>
                  row_complete_iff_columns id_status _ [(1%Z, VStr "a")] []
                    H1 Hinit H3 H4 H5 H6) as H.
    destruct H as (l & Hl & Hiff).
    + repeat constructor.
    + repeat constructor. simpl. lia.
    + discriminate.
    + vm_compute. discriminate.
    + repeat constructor. unfold fits. vm_compute. discriminate.
    + eexists _, l. split; [exact Hinit|]. split; [exact Hl | exact Hiff].
Defined.

(* ----------------------------------------------------------------- *)
(** ** [MapPrinter]: the caption and the loop of [print_data] *)

Section PanelRows.

Context {R : Type}.

Lemma format_two_fields_exact (a b : mark) (n v : Z) (x y : string) :
  (0 <= n)%Z -> (0 <= v)%Z ->
  Fmt.format ("| " ++ MapPrinter.slot (mark_str a) n ++ " | "
              ++ MapPrinter.slot (mark_str b) v ++ " |")
    [VStr x; VStr y]
  = Ok (line [Fmt.pad x (Some (Z.to_nat n)) " " (mark_align a "<");
              Fmt.pad y (Some (Z.to_nat v)) " " (mark_align b "<")]).
Proof.
  intros Hn Hv. rewrite !panel_slot_gen by assumption.
  set (sa := gen_spec a (Z.to_nat n) false).
  set (sb := gen_spec b (Z.to_nat v) false).
  assert (E : "| " ++ tok sa ++ " | " ++ tok sb ++ " |"
              = line (map tok [sa; sb])).
  { unfold line, Str.join. cbn [map String.concat].
    now rewrite !append_assoc. }
  rewrite E, format_line
    by (repeat constructor; apply brace_free_gen_spec).
  cbn [render_cells Fmt.format_value]. unfold sa, sb.
  now rewrite !format_str_gen.
Qed.

Lemma measure_widths (rows : list (Column.t R)) :
  exists n v w,
    MapPrinter.widths rows = (n, v, w)
    /\ (0 <= n)%Z /\ (0 <= v)%Z /\ (n + v + 3 <= w)%Z.
Proof.
  destruct (measure_bounds rows 0 0 0)
    as (n & v & t & Hm & Hn & Hv & Ht & _).
  exists n, v, (Z.max t (v + n + 3)).
  rewrite widths_unwidened, Hm. repeat split; lia.
Qed.

Lemma row_line_raise (mp : MapPrinter.t R) (row : Column.t R) (args : R)
  (e : exn) :
  Column.get_str row args = Raise e ->
  MapPrinter.row_line mp row args = Raise e.
Proof.
  intros H. unfold MapPrinter.row_line, MapPrinter.value_str.
  now rewrite H.
Qed.

Lemma row_line_int (mp : MapPrinter.t R) (row : Column.t R) (args : R)
  (z : Z) :
  constructed row ->
  Column.get_str row args = Ok (VInt z) ->
  MapPrinter.row_line mp row args = Raise ValueError.
Proof.
  intros Hc H. unfold MapPrinter.row_line, MapPrinter.value_str.
  rewrite H. cbn [bind]. rewrite (constructed_format row Hc).
  rewrite format_tok by apply brace_free_gen_spec.
  rewrite column_cell_int.
  destruct (Str.contains ">" (tok (column_spec row)));
    [|destruct (Str.contains "^" (tok (column_spec row)))]; reflexivity.
Qed.

(** The loop writes after what the sink holds and does not look at it. *)
Lemma print_rows_sink (mp : MapPrinter.t R) (args : R)
  (rows : list (Column.t R)) :
  forall out : sink,
    MapPrinter.print_rows mp rows args out
    = ((out ++ fst (MapPrinter.print_rows mp rows args []))%list,
       snd (MapPrinter.print_rows mp rows args [])).
Proof.
  induction rows as [|row rows IH]; intros out.
  - cbn. now rewrite List.app_nil_r.
  - cbn [MapPrinter.print_rows].
    destruct (MapPrinter.row_line mp row args) as [[l reverse]|e].
    + rewrite (IH (secho l reverse out)), (IH (secho l reverse [])).
      unfold secho. cbn [fst snd List.app]. now rewrite <- List.app_assoc.
    + cbn. now rewrite List.app_nil_r.
Qed.

Lemma print_rows_app (mp : MapPrinter.t R) (args : R)
  (pre rest : list (Column.t R)) :
  forall out : sink,
    MapPrinter.print_rows mp (pre ++ rest) args out
    = match MapPrinter.print_rows mp pre args out with
      | (out', Ok _) => MapPrinter.print_rows mp rest args out'
      | (out', Raise e) => (out', Raise e)
      end.
Proof.
  induction pre as [|row pre IH]; intros out; [reflexivity|].
  cbn [List.app MapPrinter.print_rows].
  destruct (MapPrinter.row_line mp row args) as [[l reverse]|e];
    [apply IH | reflexivity].
Qed.

(** The rows of a panel that display strings, one line each. *)
Lemma print_rows_lines (rows : list (Column.t R)) (mp : MapPrinter.t R)
  (args : R) (n v w : Z) :
  Forall constructed rows ->
  MapPrinter.init rows = Ok mp ->
  MapPrinter.widths rows = (n, v, w) ->
  forall (part : list (Column.t R)) (out : sink),
    incl part rows ->
    displays_strings part args ->
    exists lines,
      MapPrinter.print_rows mp part args out = ((out ++ lines)%list, Ok tt)
      /\ Forall2 (fun row l => snd l = Column.is_header row
                               /\ Str.len (fst l) = panel_row_length n v w row)
           part lines.
Proof.
  intros Hc Hinit Hw part.
  induction part as [|row part IH]; intros out Hincl Hdisp.
  - exists []. cbn. rewrite List.app_nil_r. split; [reflexivity | constructor].
  - inversion Hdisp as [|r rs (s & Hs) Hrest]; subst.
    assert (Hin : In row rows) by (apply Hincl; now left).
    destruct (panel_line_lengths rows mp row args s Hc Hinit Hin Hs)
      as (n' & v' & w' & l & Hw' & _ & Hl & Hlen).
    rewrite Hw in Hw'. injection Hw' as <- <- <-.
    destruct (IH (secho l (Column.is_header row) out)) as (lines & Hp & Hall).
    { intros x Hx. apply Hincl. now right. }
    { exact Hrest. }
    exists ((l, Column.is_header row) :: lines).
    cbn [MapPrinter.print_rows]. rewrite Hl, Hp.
    unfold secho. rewrite <- List.app_assoc. cbn [List.app].
    split; [reflexivity|].
    constructor; [|exact Hall]. cbn [fst snd]. split; [reflexivity | exact Hlen].
Qed.

(** [__init__] never raises: the caption words are strings and the
    widths are not negative. *)
Lemma panel_init_succeeds (rows : list (Column.t R)) :
  exists mp, MapPrinter.init rows = Ok mp.
Proof.
  destruct (measure_widths rows) as (n & v & w & Hw & Hn & Hv & _).
  unfold MapPrinter.init. rewrite Hw.
  rewrite (format_two_fields_exact MCenter MCenter) by assumption.
  cbn [bind]. eexists. reflexivity.
Qed.

End PanelRows.


(** X12. [print_data] of a [MapPrinter] whose rows all display strings
    emits one line per row, in order, after what the sink holds, and
    returns the printer: a section header is emitted with emphasis and is
    max_width + 4 characters long, a body row without emphasis and is as
    long as the separator, max_name + max_value + 7; the section headers
    are never shorter than the body rows. *)
Theorem panel_print_data_lines {R : Type} (rows : list (Column.t R))
  (mp : MapPrinter.t R) (args : R) (out : sink) :
  Forall constructed rows ->
  MapPrinter.init rows = Ok mp ->
  displays_strings rows args ->
  exists n v w lines,
    MapPrinter.widths rows = (n, v, w)
    /\ MapPrinter.print_data mp args out = ((out ++ lines)%list, Ok mp)
    /\ Forall2 (fun row l => snd l = Column.is_header row
                             /\ Str.len (fst l) = panel_row_length n v w row)
         rows lines
    /\ Str.len (MapPrinter.sep_str mp) = (n + v + 7)%Z
    /\ (n + v + 7 <= w + 4)%Z.
Proof.
  intros Hc Hinit Hdisp.
  destruct (measure_widths rows) as (n & v & w & Hw & Hn & Hv & Hwide).
  destruct (panel_init_inv rows mp n v w Hinit Hw) as (_ & Hsep & _).
  assert (Hrows : MapPrinter.rows mp = rows).
  { unfold MapPrinter.init in Hinit. rewrite Hw in Hinit.
    destruct (Fmt.format _ _) as [h|e] in Hinit; [|discriminate Hinit].
    injection Hinit as <-. reflexivity. }
  destruct (print_rows_lines rows mp args n v w Hc Hinit Hw rows out
              (incl_refl rows) Hdisp) as (lines & Hp & Hall).
  exists n, v, w, lines. split; [exact Hw|].
  split; [|split; [exact Hall|split; [|lia]]].
  - unfold MapPrinter.print_data. rewrite Hrows, Hp. reflexivity.
  - rewrite Hsep. unfold Str.len. rewrite !length_append, !length_mul.
    change (String.length "+-") with 2. change (String.length "-+-") with 3.
    change (String.length "-+") with 2. lia.
Qed.

Lemma panel_print_data_lines_witness :
  exists mp lines,
    MapPrinter.init summary_panel = Ok mp
    /\ MapPrinter.print_data mp (VStr "Totals", VStr "12") []
       = (lines, Ok mp)
    /\ Forall2 (fun row l => snd l = Column.is_header row
                             /\ Str.len (fst l) = panel_row_length 5 5 20 row)
         summary_panel lines.
Proof.
  destruct (panel_init_succeeds summary_panel) as (mp & Hinit).
  destruct (panel_print_data_lines summary_panel mp
              (VStr "Totals", VStr "12") [])
    as (n' & v' & w' & lines & Hw' & Hp & Hall & _).
  - repeat constructor.
  - exact Hinit.
  - repeat constructor; eexists; reflexivity.
  - exists mp, lines. split; [exact Hinit|]. split; [exact Hp|].
    vm_compute in Hw'. injection Hw' as <- <- <-. exact Hall.
Defined.

(** X13. When a row of the panel fails, because its accessor or value
    format raises or because its display value is an [int], [print_data]
    stops there with that error ([ValueError] for the [int]): the lines
    of the rows before it, one each, stay in the sink and no later row is
    emitted. *)
Theorem panel_print_data_failure {R : Type} (pre post : list (Column.t R))
  (bad : Column.t R) (mp : MapPrinter.t R) (args : R) (e : exn)
  (out : sink) :
  Forall constructed (pre ++ bad :: post) ->
  MapPrinter.init (pre ++ bad :: post) = Ok mp ->
  displays_strings pre args ->
  Column.get_str bad args = Raise e
  \/ (exists z, Column.get_str bad args = Ok (VInt z)) /\ e = ValueError ->
  exists lines,
    MapPrinter.print_data mp args out = ((out ++ lines)%list, Raise e)
    /\ List.length lines = List.length pre.
Proof.
  intros Hc Hinit Hdisp Hbad.
  set (rows := (pre ++ bad :: post)%list) in *.
  destruct (measure_widths rows) as (n & v & w & Hw & _).
  assert (Hrows : MapPrinter.rows mp = rows).
  { unfold MapPrinter.init in Hinit. rewrite Hw in Hinit.
    destruct (Fmt.format _ _) as [h|e'] in Hinit; [|discriminate Hinit].
    injection Hinit as <-. reflexivity. }
  destruct (print_rows_lines rows mp args n v w Hc Hinit Hw pre out)
    as (lines & Hp & Hall).
  { intros x Hx. unfold rows. apply in_or_app. now left. }
  { exact Hdisp. }
  assert (Hline : MapPrinter.row_line mp bad args = Raise e).
  { destruct Hbad as [Hraise|[[z Hz] ->]].
    - now apply row_line_raise.
    - apply (row_line_int mp bad args z); [|exact Hz].
      unfold rows in Hc. apply Forall_app in Hc as [_ Hc].
      now inversion Hc. }
  exists lines. split.
  - unfold MapPrinter.print_data. rewrite Hrows. unfold rows.
    rewrite print_rows_app, Hp. cbn [MapPrinter.print_rows].
    rewrite Hline. reflexivity.
  - symmetry. eapply Forall2_length. exact Hall.
Qed.

Lemma panel_print_data_failure_witness :
  exists mp lines,
    MapPrinter.init summary_panel = Ok mp
    /\ MapPrinter.print_data mp (VStr "Totals", VInt 12) []
       = (lines, Raise ValueError)
    /\ List.length lines = 1.
Proof.
  destruct (panel_init_succeeds summary_panel) as (mp & Hinit).
  destruct (panel_print_data_failure [row_summary] [] row_count mp
              (VStr "Totals", VInt 12) ValueError [])
    as (lines & Hp & Hlen).
  - repeat constructor.
  - exact Hinit.
  - repeat constructor. eexists. reflexivity.
  - right. split; [exists 12%Z; reflexivity | reflexivity].
  - exists mp, lines. split; [exact Hinit|]. split; [exact Hp | exact Hlen].
Defined.

(** X14. Chained calls [mp.print_data(a).print_data(b)]: the first call
    returns the printer itself, and the second writes, after the lines of
    the first, exactly the lines it would write to an empty sink; a call
    never changes or reads what the sink already holds. *)
Theorem chained_print_data {R : Type} (mp mp1 : MapPrinter.t R) (a b : R)
  (out out1 : sink) :
  MapPrinter.print_data mp a out = (out1, Ok mp1) ->
  mp1 = mp
  /\ out1 = (out ++ fst (MapPrinter.print_data mp a []))%list
  /\ MapPrinter.print_data mp1 b out1
     = ((out ++ fst (MapPrinter.print_data mp a [])
             ++ fst (MapPrinter.print_data mp b []))%list,
        snd (MapPrinter.print_data mp b [])).
Proof.
  unfold MapPrinter.print_data.
  rewrite (print_rows_sink mp a (MapPrinter.rows mp) out).
  destruct (MapPrinter.print_rows mp (MapPrinter.rows mp) a []) as [la [u|e]];
    cbn [fst snd rmap bind]; intros H; [|discriminate H].
  injection H as <- <-.
  rewrite (print_rows_sink mp b (MapPrinter.rows mp) (out ++ la)%list).
  destruct (MapPrinter.print_rows mp (MapPrinter.rows mp) b []) as [lb rb].
  cbn [fst snd]. rewrite <- List.app_assoc. repeat split.
Qed.

Lemma chained_print_data_witness :
  exists mp,
    MapPrinter.init summary_panel = Ok mp
    /\ MapPrinter.print_data mp (VStr "B", VStr "2")
         [("| A                    |", true); ("| Count | 1     |", false)]
       = ([("| A                    |", true); ("| Count | 1     |", false);
           ("| B                    |", true); ("| Count | 2     |", false)],
          Ok mp).
Proof.
  destruct (panel_init_succeeds summary_panel) as (mp & Hinit).
  exists mp. split; [exact Hinit|].
  vm_compute in Hinit. injection Hinit as <-.
  match goal with
  | |- MapPrinter.print_data ?p _ ?o = _ =>
      destruct (chained_print_data p p (VStr "A", VStr "1")
                  (VStr "B", VStr "2") [] o) as (_ & _ & H)
  end.
  - vm_compute. reflexivity.
  - etransitivity; [exact H|]. vm_compute. reflexivity.
Defined.

(* ----------------------------------------------------------------- *)
(** ** [MapPrinter]: what a row shows *)

Section PanelContent.

Context {R : Type}.

Lemma contains_digits (c : ascii) (s : string) :
  is_digit c = false -> digits_only s = true -> Str.contains c s = false.
Proof.
  intros Hc. induction s as [|d s IH]; [reflexivity|].
  cbn [digits_only Str.contains]. intros H.
  apply andb_prop in H as [Hd Hs]. rewrite (IH Hs), orb_false_r.
  destruct (Ascii.eqb_spec c d) as [->|]; [congruence | reflexivity].
Qed.

(** A column template contains [>] or [^] only as its alignment mark. *)
Lemma contains_template (c : ascii) (row : Column.t R) :
  is_digit c = false ->
  Str.contains c "{:.}" = false ->
  Str.contains c (tok (column_spec row))
  = Str.contains c (mark_str (column_mark row)).
Proof.
  intros Hd Hp. unfold tok, column_spec, gen_spec.
  rewrite !contains_append.
  rewrite !(contains_digits c _ Hd (digits_only_of_nat _)).
  cbn [Str.contains] in Hp |- *.
  repeat (apply orb_false_elim in Hp as [? Hp]).
  repeat match goal with H : _ = false |- _ => rewrite H end.
  now rewrite !orb_false_r.
Qed.

Lemma column_mark_right (row : Column.t R) :
  Str.contains ">" (tok (column_spec row))
  = match alignment_of (Column.value_format row) with
    | Right => true
    | _ => false
    end.
Proof.
  rewrite contains_template by reflexivity.
  unfold column_mark, alignment_of.
  destruct (Column.value_format row) as [f|]; [|reflexivity].
  destruct (Str.contains ">" f); [reflexivity|].
  destruct (Str.contains "^" f); reflexivity.
Qed.

Lemma column_mark_center (row : Column.t R) :
  Str.contains "^" (tok (column_spec row))
  = match alignment_of (Column.value_format row) with
    | Center => true
    | _ => false
    end.
Proof.
  rewrite contains_template by reflexivity.
  unfold column_mark, alignment_of.
  destruct (Column.value_format row) as [f|]; [|reflexivity].
  destruct (Str.contains ">" f); [reflexivity|].
  destruct (Str.contains "^" f); reflexivity.
Qed.

End PanelContent.

(** X15. What [print_data] of a [MapPrinter] shows for a row that
    displays the string [s].  The cell is [s] cut to the row's width and
    set in that width.  A section header shows the cell alone, centred
    over the full width, with emphasis.  A body row shows the row's name
    and the cell, the cell set in the value column under the row's
    alignment; the name is right-aligned in the label column, except for
    a centred row, whose name is centred. *)
Theorem panel_row_content {R : Type} (rows : list (Column.t R))
  (mp : MapPrinter.t R) (row : Column.t R) (args : R) (s : string) :
  Forall constructed rows ->
  MapPrinter.init rows = Ok mp ->
  In row rows ->
  Column.get_str row args = Ok (VStr s) ->
  exists n v w,
    MapPrinter.widths rows = (n, v, w)
    /\ MapPrinter.row_line mp row args
       = Ok (panel_line n v w row s, Column.is_header row).
Proof.
  intros Hc Hinit Hin Hget.
  destruct (measure_widths rows) as (n & v & w & Hw & Hn & Hv & Hwide).
  destruct (panel_init_inv rows mp n v w Hinit Hw)
    as (Htitle & _ & Hleft & Hright & Hcenter).
  exists n, v, w. split; [exact Hw|].
  assert (Hrow : constructed row)
    by (rewrite Forall_forall in Hc; now apply Hc).
  assert (Hval : MapPrinter.value_str mp row args
                 = Ok (match alignment_of (Column.value_format row) with
                       | Right => MapPrinter.format_right mp
                       | Center => MapPrinter.format_center mp
                       | Left => MapPrinter.format_left mp
                       end, cell_of row s)).
  { unfold MapPrinter.value_str. rewrite Hget. cbn [bind].
    pose proof (constructed_size row Hrow) as Hsz.
    rewrite (constructed_format row Hrow).
    rewrite column_mark_right, column_mark_center.
    rewrite format_tok by apply brace_free_gen_spec.
    rewrite column_cell. cbn [bind]. fold (cell_of row s).
    pose proof (length_column_cell row s) as Hlen. fold (cell_of row s) in Hlen.
    rewrite slice_from_exact, slice_to_exact by lia.
    destruct (alignment_of (Column.value_format row)); reflexivity. }
  unfold MapPrinter.row_line, panel_line. rewrite Hval. cbn [bind fst snd].
  destruct (Column.is_header row).
  - rewrite Htitle, (panel_slot_gen MCenter) by lia.
    change ("| " ++ tok (gen_spec MCenter (Z.to_nat w) false) ++ " |")
      with (line (map tok [gen_spec MCenter (Z.to_nat w) false])).
    rewrite format_line by (repeat constructor; apply brace_free_gen_spec).
    cbn [render_cells Fmt.format_value]. rewrite format_str_gen.
    cbn [bind rmap mark_align]. now rewrite pad_center.
  - destruct (alignment_of (Column.value_format row)).
    + rewrite Hleft, (format_two_fields_exact MRight MLeft) by assumption.
      cbn [bind mark_align label_alignment]. now rewrite pad_right, pad_left.
    + rewrite Hright, (format_two_fields_exact MRight MRight) by assumption.
      cbn [bind mark_align label_alignment]. now rewrite !pad_right.
    + rewrite Hcenter, (format_two_fields_exact MCenter MCenter) by assumption.
      cbn [bind mark_align label_alignment]. now rewrite !pad_center.
Qed.

Lemma panel_row_content_witness :
  exists mp,
    MapPrinter.init summary_panel = Ok mp
    /\ MapPrinter.row_line mp row_count (VStr "Totals", VStr "1234567")
       = Ok ("| Count | 12345 |", false).
Proof.
  destruct (panel_init_succeeds summary_panel) as (mp & Hinit).
  exists mp. split; [exact Hinit|].
  destruct (panel_row_content summary_panel mp row_count
              (VStr "Totals", VStr "1234567") "1234567")
    as (n' & v' & w' & Hw & Hl).
  - repeat constructor.
  - exact Hinit.
  - right. left. reflexivity.
  - reflexivity.
  - vm_compute in Hw. injection Hw as <- <- <-. exact Hl.
Defined.
